(** * Student performance analysis: the aggregation pipeline of [Example.py]

    A shallow embedding of the data-frame transforms of [Example.py]
    ([determine_pass_fail], [grade_distribution_per_subject],
    [subjects_failed], [avg_marks_per_subject], [subject_wise_pass_fail],
    [department_wise_pass_fail]) and of the load / filter / render cycle
    that calls them, followed by the properties of the specification.

    A data frame is a list of rows in index order; a series or a derived
    table is a list of entries in the order pandas lays them out.  The
    functions that assign to a column of their argument are state
    transformers over the frame; a Python exception is an error result. *)

From Stdlib Require Import QArith.
From stdpp Require Import base decidable option strings pretty numbers sorting gmap list.

Close Scope Q_scope.
Open Scope string_scope.
Open Scope nat_scope.

(** ** Part I. The pandas operations the pipeline uses *)

Section unique.
Context {A : Type} `{EqDecision A}.

(** [Series.unique] and [DataFrame.drop_duplicates]: the distinct values,
    each at the place of its first occurrence. *)
Fixpoint unique (l : list A) : list A :=
  match l with
  | [] => []
  | x :: t => x :: filter (λ y, y ≠ x) (unique t)
  end.

(** Most frequent first. *)
Definition by_count_desc : relation (A * nat) := λ a b, b.2 ≤ a.2.

#[global] Instance by_count_desc_dec : RelDecision by_count_desc.
Proof. intros a b. unfold by_count_desc. apply _. Defined.

(** [sort_values(ascending=False)] on a series of counts: an entry goes
    before the first entry that is not more frequent, so values that occur
    equally often stay in the order they had. *)
Fixpoint insert_by_count (x : A * nat) (l : list (A * nat)) : list (A * nat) :=
  match l with
  | [] => [x]
  | y :: t => if decide (by_count_desc x y) then x :: y :: t
              else y :: insert_by_count x t
  end.

Definition sort_by_count (l : list (A * nat)) : list (A * nat) :=
  foldr insert_by_count [] l.

(** [Series.value_counts]: one entry per distinct value with the number of
    its occurrences, most frequent first; values that occur equally often
    come in the order of their first occurrence. *)
Definition value_counts (l : list A) : list (A * nat) :=
  sort_by_count ((λ v, (v, length (filter (λ x, x = v) l))) <$> unique l).

End unique.

(** The order of tuples of keys: by the first key, then by the second. *)
Definition lex_le {A B} (leA : relation A) (leB : relation B) : relation (A * B) :=
  λ p q, (p.1 ≠ q.1 ∧ leA p.1 q.1) ∨ (p.1 = q.1 ∧ leB p.2 q.2).

#[global] Instance lex_le_dec {A B} `{EqDecision A} (leA : relation A) (leB : relation B)
  `{!RelDecision leA, !RelDecision leB} : RelDecision (lex_le leA leB).
Proof. intros p q. unfold lex_le. apply _. Defined.

#[global] Instance bool_le_dec : RelDecision bool_le.
Proof. intros a b. unfold bool_le. apply _. Defined.

Section series.
Context {K V : Type} `{EqDecision K}.

(** [s.loc[k]] on a series with unique labels; [None] when the label is absent. *)
Fixpoint loc (s : list (K * V)) (k : K) : option V :=
  match s with
  | [] => None
  | (k', v) :: t => if decide (k' = k) then Some v else loc t k
  end.

(** [s.reindex(new_index, fill_value=fill)]. *)
Definition reindex (s : list (K * V)) (new_index : list K) (fill : V) : list (K * V) :=
  (λ k, (k, default fill (loc s k))) <$> new_index.

End series.

(** [pd.MultiIndex.from_product([l1, l2])]: the first level varies slowest. *)
Definition from_product {A B} (l1 : list A) (l2 : list B) : list (A * B) :=
  a ← l1; (λ b, (a, b)) <$> l2.

Section groupby.
Context {R K : Type} `{EqDecision K} (le : relation K) `{!RelDecision le}.

(** The group labels of [groupby(key)]: the distinct keys in sorted order; a
    row whose key is missing ([None], pandas' NaN) belongs to no group. *)
Definition group_keys (key : R → option K) (table : list R) : list K :=
  merge_sort le (unique (omap key table)).

Definition group (key : R → option K) (table : list R) (k : K) : list R :=
  filter (λ r, key r = Some k) table.

(** [groupby(key).agg(f)]: one entry per group, in the order of the labels. *)
Definition groupby {V} (key : R → option K) (agg : list R → V) (table : list R)
  : list (K * V) :=
  (λ k, (k, agg (group key table k))) <$> group_keys key table.

(** [groupby(key).size()]. *)
Definition groupby_size (key : R → option K) (table : list R) : list (K * nat) :=
  groupby key length table.

End groupby.

(** A frame in wide form: row labels, column labels and the cells row by row. *)
Record Pivot (K C V : Type) := mkPivot {
  index : list K;
  columns : list C;
  cells : list (list V)
}.
Arguments mkPivot {K C V}.
Arguments index {K C V}.
Arguments columns {K C V}.
Arguments cells {K C V}.

Section unstack.
Context {K C V : Type} `{EqDecision K, EqDecision C}.
Context (leK : relation K) (leC : relation C) `{!RelDecision leK, !RelDecision leC}.

(** [s.unstack(fill_value=fill)] on a series labelled by pairs: the second
    level becomes the columns; only the values that occur become columns. *)
Definition unstack (s : list (K * C * V)) (fill : V) : Pivot K C V :=
  let rows := merge_sort leK (unique (s.*1.*1)) in
  let cols := merge_sort leC (unique (s.*1.*2)) in
  mkPivot rows cols ((λ k, (λ c, default fill (loc s (k, c))) <$> cols) <$> rows).

(** [frame.reindex(columns=new_columns, fill_value=fill)]. *)
Definition reindex_columns (p : Pivot K C V) (new_columns : list C) (fill : V)
  : Pivot K C V :=
  mkPivot (index p) new_columns
    ((λ row, (λ c, default fill (loc (zip (columns p) row) c)) <$> new_columns)
       <$> cells p).

End unstack.

(** ** Part II. The data model *)

#[global] Instance Q_eq_dec : EqDecision Q.
Proof. solve_decision. Defined.

(** A cell of a mark column as read from the sheet: a number, a text, or
    empty (NaN).  Numbers are exact rationals: rounding of floats is not
    modelled. *)
Inductive cell :=
| CNum (q : Q)
| CStr (s : string)
| CNaN.

#[global] Instance cell_eq_dec : EqDecision cell.
Proof. solve_decision. Defined.

(** One row of the sheet "UG", restricted to the required columns.  The
    identifying columns are taken as populated. *)
Record Row := mkRow {
  DEPNAME : string;
  BRNAME : string;
  SEM : Z;
  REGNO : Z;
  SUBCODE : string;
  SUBTYPE : string;
  SESMARK : cell;
  ESEM : cell;
  TOTMARK : cell;
  GRADE : string
}.

#[global] Instance Row_eq_dec : EqDecision Row.
Proof. solve_decision. Defined.

(** The frame the aggregation functions receive: the rows and, once some
    function has assigned it, the column "Pass". *)
Record DataFrame := mkDF {
  rows : list Row;
  Pass : option (list bool)
}.

#[global] Instance DataFrame_eq_dec : EqDecision DataFrame.
Proof. solve_decision. Defined.

Inductive exn :=
| KeyError (label : string)
| TypeError (what : string)
| LengthMismatch (expected given : nat).

(** An aggregation call: it may assign to columns of the frame it is given
    and either returns a table or raises. *)
Definition Agg (T : Type) : Type := DataFrame → DataFrame * (exn + T).

#[global] Instance Agg_ret : MRet Agg := λ T x df, (df, inr x).
#[global] Instance Agg_bind : MBind Agg := λ T U f m df,
  match m df with
  | (df', inr x) => f x df'
  | (df', inl e) => (df', inl e)
  end.

Definition raise {T} (e : exn) : Agg T := λ df, (df, inl e).

(** [df] itself, as it stands. *)
Definition frame : Agg DataFrame := λ df, (df, inr df).

(** [df["Pass"] = col]. *)
Definition assign_Pass (col : list bool) : Agg unit :=
  λ df, (mkDF (rows df) (Some col), inr ()).

(** [df["Pass"]]. *)
Definition column_Pass : Agg (list bool) := λ df,
  match Pass df with
  | Some col => (df, inr col)
  | None => (df, inl (KeyError "Pass"))
  end.

(** [df[cols] = ...]: the rows are replaced, the column "Pass" is kept. *)
Definition assign_rows (new_rows : list Row) : Agg unit :=
  λ df, (mkDF new_rows (Pass df), inr ()).

(** ** Part III. The aggregation functions *)

(** *** Rows of the derived tables *)

Module StudentStatus.
Record row := mk { REGNO : Z; Pass : bool; Status : string }.
End StudentStatus.

Module GradeCount.
Record row := mk { SUBCODE : string; GRADE : string; Count : nat }.
End GradeCount.

Module Arrears.
Record row := mk { Subjects_Failed : nat; Student_Count : nat }.
End Arrears.

Module SubjectAvg.
Record row := mk {
  SUBJECT_CODE : string;
  INTERNAL : option Q;
  EXTERNAL : option Q;
  TOTAL : option Q
}.
End SubjectAvg.

Module SubjectPassFail.
Record row := mk { SUBJECT_CODE : string; Fail : nat; Pass : nat }.
End SubjectPassFail.

(** [DEPT_ABBREVIATIONS]. *)
Definition DEPT_ABBREVIATIONS : gmap string string :=
  list_to_map [
    ("AEROSPACE ENGINEERING", "AERO");
    ("AUTOMOBILE ENGINEERING", "AUTO");
    ("ELECTRONICS ENGINEERING", "ECE");
    ("INFORMATION TECHNOLOGY", "IT");
    ("INSTRUMENTATION ENGINEERING", "E&I");
    ("PRODUCTION TECHNOLOGY", "PT");
    ("RUBBER AND PLASTICS TECHNOLOGY", "RPT")
  ].

(** [df["GRADE"] != "U"], row by row. *)
Definition grade_not_U (r : Row) : bool := bool_decide (GRADE r ≠ "U").

(** [.map({True: "Pass", False: "Fail"})]. *)
Definition status_label (b : bool) : string := if b then "Pass" else "Fail".

(** [df.groupby("REGNO")["Pass"].all().reset_index()] followed by the
    assignment of the column "Status"; the argument pairs each row with its
    cell of the column "Pass". *)
Definition student_pass_fail (table : list (Row * bool)) : list StudentStatus.row :=
  (λ e, StudentStatus.mk e.1 e.2 (status_label e.2))
    <$> groupby Z.le (λ rp, Some (REGNO rp.1)) (forallb snd) table.

Definition determine_pass_fail : Agg (list StudentStatus.row) :=
  df ← frame;
  assign_Pass (grade_not_U <$> rows df);;
  df ← frame;
  pass ← column_Pass;
  mret (student_pass_fail (zip (rows df) pass)).

Definition grade_order : list string := ["O"; "A+"; "A"; "B+"; "B"; "C"; "U"].

Definition grade_distribution_per_subject : Agg (list GradeCount.row) :=
  df ← frame;
  let subjects := unique (SUBCODE <$> rows df) in
  let all_combinations := from_product subjects grade_order in
  let sizes :=
    groupby_size (lex_le String.le String.le)
                 (λ r, Some (SUBCODE r, GRADE r)) (rows df) in
  mret ((λ e, GradeCount.mk e.1.1 e.1.2 e.2) <$> reindex sizes all_combinations 0).

(** [groupby("REGNO")["SUBCODE"].count()] counts the populated cells of
    SUBCODE, which are all the cells of the group. *)
Definition subjects_failed : Agg (list Arrears.row) :=
  df ← frame;
  let failed := filter (λ r, GRADE r = "U") (rows df) in
  let per_student := groupby Z.le (λ r, Some (REGNO r)) length failed in
  mret ((λ e, Arrears.mk e.1 e.2) <$> value_counts (per_student.*2)).

Section coercion.
(** The conversion of a text to a number by [pd.to_numeric], which is
    pandas' own; [None] when the text is not a number. *)
Variable str_to_num : string → option Q.

(** [pd.to_numeric(., errors="coerce")] on one cell. *)
Definition to_numeric (c : cell) : cell :=
  match c with
  | CNum q => CNum q
  | CStr s => match str_to_num s with Some q => CNum q | None => CNaN end
  | CNaN => CNaN
  end.

Definition coerce_marks (r : Row) : Row :=
  mkRow (DEPNAME r) (BRNAME r) (SEM r) (REGNO r) (SUBCODE r) (SUBTYPE r)
        (to_numeric (SESMARK r)) (to_numeric (ESEM r)) (to_numeric (TOTMARK r))
        (GRADE r).

(** The numbers of a column for ["mean"], which skips NaN; a text in the
    column makes the aggregation raise. *)
Fixpoint numbers (col : list cell) : exn + list Q :=
  match col with
  | [] => inr []
  | CNum q :: t => match numbers t with inr l => inr (q :: l) | inl e => inl e end
  | CNaN :: t => numbers t
  | CStr _ :: _ => inl (TypeError "mean")
  end.

Definition Qsum (l : list Q) : Q := foldr Qplus 0%Q l.

(** The mean of the numbers; NaN ([None]) when there is none. *)
Definition Qmean (l : list Q) : option Q :=
  match l with
  | [] => None
  | _ => Some (Qred (Qsum l / inject_Z (Z.of_nat (length l))))
  end.

Definition mean (col : list cell) : exn + option Q :=
  match numbers col with
  | inr l => inr (Qmean l)
  | inl e => inl e
  end.

(** [groupby("SUBCODE").agg({"SESMARK": "mean", "ESEM": "mean", "TOTMARK": "mean"})]
    for one group. *)
Definition mean_marks (code : string) (g : list Row) : exn + SubjectAvg.row :=
  match mean (SESMARK <$> g), mean (ESEM <$> g), mean (TOTMARK <$> g) with
  | inr i, inr e, inr t => inr (SubjectAvg.mk code i e t)
  | inl x, _, _ => inl x
  | _, inl x, _ => inl x
  | _, _, inl x => inl x
  end.

(** The first exception of a list of results, or all the values. *)
Fixpoint sequence {T} (l : list (exn + T)) : exn + list T :=
  match l with
  | [] => inr []
  | inl e :: _ => inl e
  | inr x :: t => match sequence t with inr xs => inr (x :: xs) | inl e => inl e end
  end.

Definition of_result {T} (r : exn + T) : Agg T := λ df, (df, r).

Definition avg_marks_per_subject : Agg (list SubjectAvg.row) :=
  df ← frame;
  assign_rows (coerce_marks <$> rows df);;
  df ← frame;
  of_result (sequence ((λ e, mean_marks e.1 e.2)
     <$> groupby String.le (λ r, Some (SUBCODE r)) id (rows df))).

End coercion.

(** [wide.reset_index()] followed by [.columns = ["SUBJECT CODE", "Fail", "Pass"]]:
    the assignment raises unless the frame has three columns. *)
Definition set_columns (wide : Pivot string bool nat) : Agg (list SubjectPassFail.row) :=
  let width := S (length (columns wide)) in
  if decide (width = 3) then
    mret ((λ e, SubjectPassFail.mk e.1 (e.2 !!! 0) (e.2 !!! 1))
            <$> zip (index wide) (cells wide))
  else raise (LengthMismatch width 3).

Definition subject_wise_pass_fail : Agg (list SubjectPassFail.row) :=
  df ← frame;
  assign_Pass (grade_not_U <$> rows df);;
  df ← frame;
  pass ← column_Pass;
  let sizes :=
    groupby_size (lex_le String.le bool_le)
                 (λ rp, Some (SUBCODE rp.1, rp.2)) (zip (rows df) pass) in
  set_columns (unstack String.le bool_le sizes 0).

(** [left.merge(right, on="REGNO", how="left")]: every row of [left], once
    for each row of [right] with its REGNO, and once with a missing DEPNAME
    when there is none. *)
Definition merge_left (left : list StudentStatus.row) (right : list (Z * string))
  : list (StudentStatus.row * option string) :=
  e ← left;
  match filter (λ p, p.1 = StudentStatus.REGNO e) right with
  | [] => [(e, None)]
  | ms => (λ p, (e, Some p.2)) <$> ms
  end.

Definition department_wise_pass_fail : Agg (Pivot string string nat) :=
  df ← frame;
  assign_Pass (grade_not_U <$> rows df);;
  df ← frame;
  pass ← column_Pass;
  let student_pass_fail := student_pass_fail (zip (rows df) pass) in
  let df_unique := unique ((λ r, (REGNO r, DEPNAME r)) <$> rows df) in
  let merged := merge_left student_pass_fail df_unique in
  let short := (λ m, (m.1, m.2 ≫= (DEPT_ABBREVIATIONS !!.))) <$> merged in
  let department_pass_fail :=
    unstack String.le String.le
      (groupby_size (lex_le String.le String.le)
         (λ m, c ← m.2; Some (c, StudentStatus.Status m.1)) short) 0 in
  mret (reindex_columns department_pass_fail ["Pass"; "Fail"] 0).

(** ** Part IV. Loading, filtering and the render cycle *)

(** [DEPT_PREFIX], in the order of the dictionary. *)
Definition DEPT_PREFIX : list (string * string) := [
  ("Aerospace", "AE"); ("Automobile", "AU"); ("Electronics Comm", "EC");
  ("Artificial Intelligence", "AZ"); ("Information Tech", "IT"); ("Inst Eng", "EI");
  ("Mech", "ME"); ("Production", "PR"); ("Robotics", "RO");
  ("Rubber and Plastics", "RP")
].

Definition extra_subjects : list (string * list string) := [
  ("Aeronautical", ["HM5503"; "EC5797"; "PR5791"; "EC5796"; "RP5591"; "EI5791";
                    "AU5791"; "ME5796"; "IT5794"]);
  ("Automobile", ["GE5552"; "IT5794"; "GE5451"; "ITM503"; "ITM505"; "EC5796";
                  "EC5797"; "PR5791"; "RP5591"; "AE5795"; "ME5796"]);
  ("ECE", ["HU5176"; "IT5794"; "MG5451"; "PH5202"; "EI5791"; "HU5172"; "HU5171";
           "ME5796"; "HU5173"; "PR5791"; "HU5177"; "AU5791"; "AE5795"; "HU5174";
           "RP5591"]);
  ("AI", ["HU5173"; "HU5176"; "HU5171"; "HU5172"; "HU5177"]);
  ("IT", ["HU5174"; "HU5177"; "HU5172"; "HU5173"; "HU5176"; "HU5171"; "EC5797";
          "EC5796"; "AE5795"; "AU5791"; "EI5791"; "ME5796"; "PR5791"; "RP5591"]);
  ("EI", ["HM5501"; "ME5796"; "RP5591"; "EC5796"; "EC5797"; "IT5794"; "PR5791";
          "AE5795"]);
  ("Mech", ["ITM503"; "ITM505"; "AU5791"; "AE5795"; "GE5152"; "MA5252"]);
  ("Production", ["GE5551"; "HS5151"; "ITM503"; "ITM505"; "EEM504"; "EEM503";
                  "EI5791"; "EC5796"; "IT5794"; "AE5795"]);
  ("Robo", ["EE5402"; "ITM503"; "ITM505"; "MA5158"]);
  ("Rubber", ["HU5171"; "HU5176"; "HU5172"; "ITM503"; "ITM505"; "HU5177"; "HU5174";
              "GE5451"; "ME5796"; "EC5797"; "AE5795"; "AU5791"; "EC5796"])
].

Definition required_cols : list string :=
  ["DEPNAME"; "BRNAME"; "SEM"; "REGNO"; "SUBCODE"; "SUBTYPE"; "SESMARK"; "ESEM";
   "TOTMARK"; "GRADE"].

(** What [pd.read_excel(uploaded_file, sheet_name="UG")] makes of the upload:
    an exception with its text, or the sheet with its column labels.  The
    rows are read only when the required columns are there. *)
Inductive workbook :=
| Unreadable (e : string)
| UG (sheet_columns : list string) (table : list Row).

(** What a render cycle does that can be observed: the messages it shows,
    [st.stop()], and the aggregation functions it calls. *)
Inductive event :=
| StError (text : string)
| StWarning (text : string)
| StStop
| Invoke (function : string).

Definition load_data (uploaded_file : workbook) : list event * option (list Row) :=
  match uploaded_file with
  | Unreadable e => ([StError ("Error loading file: " +:+ e)], None)
  | UG cols table =>
      if forallb (λ col, bool_decide (col ∈ cols)) required_cols
      then ([], Some table)
      else ([StError "Excel file is missing required columns!"], None)
  end.

(** The options of the semester select box. *)
Inductive semester_option := Sem_Overall | Sem_5 | Sem_7.

Definition semester_text (s : semester_option) : string :=
  match s with Sem_Overall => "Overall" | Sem_5 => "5" | Sem_7 => "7" end.

(** [int(selected_semester)] for the options other than "Overall". *)
Definition semester_int (s : semester_option) : option Z :=
  match s with Sem_Overall => None | Sem_5 => Some 5%Z | Sem_7 => Some 7%Z end.

(** The values of the select boxes; the branch box exists only for a
    specific department. *)
Record widgets := mkWidgets {
  selected_department : string;
  branch_box : string;
  selected_semester : semester_option
}.

Definition selected_branch (w : widgets) : string :=
  if bool_decide (selected_department w ∈ ["Overall"; "Others (Open Elective)"])
  then "All" else branch_box w.

(** [s.startswith(prefixes)] for a tuple of prefixes. *)
Definition startswith (prefixes : list string) (s : string) : bool :=
  existsb (λ p, String.prefix p s) prefixes.

(** The rows for "Others (Open Elective)". *)
Definition others (df : list Row) : list Row :=
  let all_prefixes := DEPT_PREFIX.*2 in
  let df_others := filter (λ r, startswith all_prefixes (SUBCODE r) = false) df in
  let subject_list :=
    (merge_sort String.le (unique (SUBCODE <$> df_others))
       ++ mjoin (extra_subjects.*2))%list in
  let subject_list := merge_sort String.le (unique subject_list) in
  let df_extra := filter (λ r, SUBCODE r ∈ subject_list) df in
  unique (df_others ++ df_extra)%list.

Definition by_department (w : widgets) (df : list Row) : list Row :=
  if bool_decide (selected_department w = "Others (Open Elective)") then others df
  else if bool_decide (selected_department w ≠ "Overall") then
    let filtered_df := filter (λ r, DEPNAME r = selected_department w) df in
    if bool_decide (selected_branch w ≠ "All")
    then filter (λ r, BRNAME r = selected_branch w) filtered_df
    else filtered_df
  else df.

Definition by_semester (w : widgets) (filtered_df : list Row) : list Row :=
  match semester_int (selected_semester w) with
  | Some n => filter (λ r, SEM r = n) filtered_df
  | None => filtered_df
  end.

(** The six derived tables of one cycle. *)
Record Derived := mkDerived {
  pass_fail_df : list StudentStatus.row;
  subjects_failed_df : list Arrears.row;
  department_pass_fail : Pivot string string nat;
  subject_pass_fail : list SubjectPassFail.row;
  subject_avg : list SubjectAvg.row;
  subject_grade_counts : list GradeCount.row
}.

(** The script: the frame [filtered_df] its calls share, and what it has
    done so far. *)
Record script_state := mkScript {
  done : list event;
  filtered_df : DataFrame
}.

Definition Script (T : Type) : Type := script_state → script_state * (exn + T).

#[global] Instance Script_ret : MRet Script := λ T x s, (s, inr x).
#[global] Instance Script_bind : MBind Script := λ T U f m s,
  match m s with
  | (s', inr x) => f x s'
  | (s', inl e) => (s', inl e)
  end.

(** A call [f(filtered_df)]. *)
Definition invoke {T} (name : string) (f : Agg T) : Script T := λ s,
  let (df, r) := f (filtered_df s) in
  (mkScript (done s ++ [Invoke name])%list df, r).

Inductive outcome :=
| Stopped
| Uncaught (e : exn)
| Finished (tables : option Derived).

Section render.
Variable str_to_num : string → option Q.

(** The [else] branch of the check [filtered_df.empty]. *)
Definition aggregate : Script Derived :=
  a ← invoke "determine_pass_fail" determine_pass_fail;
  b ← invoke "subjects_failed" subjects_failed;
  c ← invoke "department_wise_pass_fail" department_wise_pass_fail;
  d ← invoke "subject_wise_pass_fail" subject_wise_pass_fail;
  e ← invoke "avg_marks_per_subject" (avg_marks_per_subject str_to_num);
  f ← invoke "grade_distribution_per_subject" grade_distribution_per_subject;
  mret (mkDerived a b c d e f).

(** The script from [if uploaded_file:] to the computation of the tables;
    the charts drawn from them are not part of the model. *)
Definition main (uploaded_file : option workbook) (w : widgets) : list event * outcome :=
  match uploaded_file with
  | None => ([], Finished None)
  | Some file =>
      match load_data file with
      | (shown, None) => ((shown ++ [StStop])%list, Stopped)
      | (shown, Some df) =>
          let filtered := by_semester w (by_department w df) in
          if decide (filtered = []) then
            ((shown ++ [StWarning ("No data available for " +:+ selected_department w
                          +:+ " - " +:+ selected_branch w
                          +:+ " in Semester " +:+ semester_text (selected_semester w))])%list,
             Finished None)
          else
            match aggregate (mkScript shown (mkDF filtered None)) with
            | (s, inr tables) => (done s, Finished (Some tables))
            | (s, inl e) => (done s, Uncaught e)
            end
      end
  end.

End render.

(** ** Part V. The notions the properties are stated with *)

(** *** Students and their status *)

(** The rows paired with the column "Pass" as the functions assign it. *)
Definition with_Pass (table : list Row) : list (Row * bool) :=
  (λ r, (r, grade_not_U r)) <$> table.

Definition by_REGNO (rp : Row * bool) : option Z := Some (REGNO rp.1).

Definition status_row (table : list Row) (r : Z) : StudentStatus.row :=
  let b := forallb snd (group by_REGNO (with_Pass table) r) in
  StudentStatus.mk r b (status_label b).

(** A student passes when all rows of the student have a grade other than "U". *)
Definition passed (table : list Row) (r : Z) : bool :=
  forallb grade_not_U (filter (λ row, REGNO row = r) table).

Definition status_of (table : list Row) (r : Z) : string :=
  status_label (passed table r).

(** *** Subjects and grades *)

(** The rows of a subject with a given grade. *)
Definition rows_with (table : list Row) (s g : string) : list Row :=
  filter (λ r, SUBCODE r = s ∧ GRADE r = g) table.

Definition by_SUBCODE_GRADE (r : Row) : option (string * string) :=
  Some (SUBCODE r, GRADE r).

Definition grade_row (table : list Row) (s g : string) : GradeCount.row :=
  GradeCount.mk s g (length (rows_with table s g)).

Definition by_SUBCODE_Pass (rp : Row * bool) : option (string * bool) :=
  Some (SUBCODE rp.1, rp.2).

Definition rows_of (table : list Row) (s : string) (b : bool) : list Row :=
  filter (λ r, SUBCODE r = s ∧ grade_not_U r = b) table.

Definition subject_row (table : list Row) (s : string) : SubjectPassFail.row :=
  SubjectPassFail.mk s (length (rows_of table s false)) (length (rows_of table s true)).

Definition by_SUBCODE (r : Row) : option string := Some (SUBCODE r).

(** *** Arrears *)

Definition REGNO_of (r : Row) : option Z := Some (REGNO r).

Definition failed_rows (table : list Row) : list Row :=
  filter (λ r, GRADE r = "U") table.

(** The number of failed rows of every student who has one. *)
Definition arrears_per_student (table : list Row) : list nat :=
  (groupby Z.le REGNO_of length (failed_rows table)).*2.

(** *** Departments *)

Definition REGNO_DEPNAME (r : Row) : Z * string := (REGNO r, DEPNAME r).

(** The students of a department code with a status: the distinct pairs of
    a registration id and a department name of the frame whose name has
    that code and whose student has that status. *)
Definition students (table : list Row) (code status : string) : nat :=
  length (filter (λ p, DEPT_ABBREVIATIONS !! p.2 = Some code ∧ status_of table p.1 = status)
                 (unique (REGNO_DEPNAME <$> table))).

Definition department_table (table : list Row) : Pivot string string nat :=
  let codes :=
    merge_sort String.le (unique (omap (λ r, DEPT_ABBREVIATIONS !! DEPNAME r) table)) in
  mkPivot codes ["Pass"; "Fail"]
          ((λ code, [students table code "Pass"; students table code "Fail"]) <$> codes).

Definition by_DEPNAME_SHORT_Status (m : StudentStatus.row * option string)
  : option (string * string) :=
  c ← m.2; Some (c, StudentStatus.Status m.1).

(** The students joined to their department names, with the short names. *)
Definition short_names (table : list Row) : list (StudentStatus.row * option string) :=
  (λ m, (m.1, m.2 ≫= (DEPT_ABBREVIATIONS !!.)))
    <$> merge_left (student_pass_fail (with_Pass table)) (unique (REGNO_DEPNAME <$> table)).

Definition short_name_of (table : list Row) (p : Z * string)
  : StudentStatus.row * option string :=
  (status_row table p.1, DEPT_ABBREVIATIONS !! p.2).

(** *** Means of the parseable cells *)

Section parseable.
Variable str_to_num : string → option Q.

(** The number a cell stands for, when it is one or a text that reads as
    one: the cell is then "numerically parseable". *)
Definition parseable (c : cell) : option Q :=
  match c with
  | CNum q => Some q
  | CStr s => str_to_num s
  | CNaN => None
  end.

(** The mean of the parseable cells of a mark column over the rows of a
    subject: their sum divided by their number, and no value (NaN) when no
    cell is parseable. *)
Definition mean_of_parseable (col : Row → cell) (table : list Row) (s : string)
  : option Q :=
  Qmean (omap (λ r, parseable (col r)) (filter (λ r, SUBCODE r = s) table)).

Definition avg_row (table : list Row) (s : string) : SubjectAvg.row :=
  SubjectAvg.mk s (mean_of_parseable SESMARK table s)
                  (mean_of_parseable ESEM table s)
                  (mean_of_parseable TOTMARK table s).

End parseable.

(** *** Sheets to run the functions on *)

(** A conversion that reads the texts made of decimal digits; [pd.to_numeric]
    reads more texts as numbers (signs, fractions, exponents).  It serves to
    run the functions on the sheets below, whose texts are digits or "AB". *)
Fixpoint digits (s : string) (acc : nat) : option nat :=
  match s with
  | "" => Some acc
  | String c s' => n ← Ascii.is_nat c; digits s' (10 * acc + n)
  end.

Definition decimal (s : string) : option Q :=
  match s with
  | "" => None
  | _ => (λ n, inject_Z (Z.of_nat n)) <$> digits s 0
  end.

(** A row whose grade is "AB" (absent), with texts for two of the marks. *)
Definition absent_row : Row :=
  mkRow "AEROSPACE ENGINEERING" "AERONAUTICAL" 5 2021501001 "AE101" "THEORY"
        (CNum 38) (CStr "AB") (CStr "AB") "AB".

(** A row that is a pass. *)
Definition passed_row : Row :=
  mkRow "AEROSPACE ENGINEERING" "AERONAUTICAL" 5 2021501001 "AE101" "THEORY"
        (CNum 38) (CNum 52) (CNum 90) "O".

(** A row of a student of a department that has no abbreviation. *)
Definition mechanical_row : Row :=
  mkRow "MECHANICAL ENGINEERING" "MECHANICAL" 5 2021507001 "ME5501" "THEORY"
        (CNum 30) (CNum 20) (CNum 50) "U".

(** The rows of the example: two students, two subjects, one failure. *)
Definition sample_row (regno : Z) (subcode grade : string) : Row :=
  mkRow "AEROSPACE ENGINEERING" "AERONAUTICAL" 5 regno subcode "THEORY"
        (CNum 40) (CStr "45") (CStr "AB") grade.

Definition sample : list Row :=
  [sample_row 1 "AE101" "O"; sample_row 1 "AE102" "U"; sample_row 2 "AE101" "A"].

(** ** Part VI. The data behind the charts *)

(** A chart as far as its data goes: the title and the frame it draws. *)
Record chart (D : Type) := mkChart {
  chart_title : string;
  chart_data : list D
}.
Arguments mkChart {D}.
Arguments chart_title {D}.
Arguments chart_data {D}.

(** [frame.melt(id_vars=id, var_name=.., value_name=..)] on a frame given by
    its id column and its other columns in order, each with its label:
    variable after variable, the rows in order. *)
Definition melt {K C V} (ids : list K) (value_vars : list (C * list V))
  : list (K * C * V) :=
  cv ← value_vars; zip_with (λ k v, (k, cv.1, v)) ids cv.2.

(** The columns of a wide frame, each with its label. *)
Definition value_columns {K C} (p : Pivot K C nat) : list (C * list nat) :=
  imap (λ j c, (c, (λ row, row !!! j) <$> cells p)) (columns p).

Module PassFailCount.
Record row := mk { Status : string; Count : nat; Percentage : option Q }.
End PassFailCount.

(** [Count / total * 100]; NaN ([None]) for 0 / 0. *)
Definition percentage (count total : nat) : option Q :=
  if decide (total = 0) then None
  else Some (Qred (inject_Z (Z.of_nat count) / inject_Z (Z.of_nat total) * 100)).

(** The frame and the title of [pass_fail_chart]. *)
Definition pass_fail_chart (df : list StudentStatus.row) : chart PassFailCount.row :=
  let pass_fail_counts :=
    reindex (value_counts (StudentStatus.Status <$> df)) ["Pass"; "Fail"] 0 in
  let total := sum_list (pass_fail_counts.*2) in
  mkChart ("Pass/Fail Count (Total: " +:+ pretty total +:+ ")")
          ((λ e, PassFailCount.mk e.1 e.2 (percentage e.2 total)) <$> pass_fail_counts).

(** The frame and the title of [plot_department_wise_chart]: the index
    becomes the column DEPNAME_SHORT, the two columns are melted. *)
Definition plot_department_wise_chart (department_pass_fail : Pivot string string nat)
    (selected_semester : string) : chart (string * string * nat) :=
  mkChart ("Department-wise Pass/Fail Count (" +:+ selected_semester +:+ ")")
          (melt (index department_pass_fail) (value_columns department_pass_fail)).

Definition subjects_per_chart : nat := 5.

(** [(len(subjects) + subjects_per_chart - 1) // subjects_per_chart]. *)
Definition num_charts (n : nat) : nat :=
  (n + subjects_per_chart - 1) / subjects_per_chart.

(** [l[a:b]]. *)
Definition slice {A} (l : list A) (a b : nat) : list A := take (b - a) (drop a l).

(** [subjects[start_idx:end_idx]] of the chart [i]. *)
Definition subset_subjects {A} (subjects : list A) (i : nat) : list A :=
  let start_idx := i * subjects_per_chart in
  let end_idx := ((i + 1) * subjects_per_chart) `min` length subjects in
  slice subjects start_idx end_idx.

Definition part_title (title_prefix : string) (i : nat) : string :=
  title_prefix +:+ " - Part " +:+ pretty (i + 1).

(** The charts [plot_subject_wise_pass_fail] hands to [st.altair_chart].
    [reset_index()] on the table, whose index is the default one, adds the
    index as a column "index"; [melt] then takes it as a variable. *)
Definition plot_subject_wise_pass_fail (subject_pass_fail : list SubjectPassFail.row)
    (title_prefix : string) : list (chart (string * string * nat)) :=
  let subject_df :=
    melt (SubjectPassFail.SUBJECT_CODE <$> subject_pass_fail)
         [("index", seq 0 (length subject_pass_fail));
          ("Fail", SubjectPassFail.Fail <$> subject_pass_fail);
          ("Pass", SubjectPassFail.Pass <$> subject_pass_fail)] in
  let subjects := SubjectPassFail.SUBJECT_CODE <$> subject_pass_fail in
  (λ i, mkChart (part_title title_prefix i)
                (filter (λ e, e.1.1 ∈ subset_subjects subjects i) subject_df))
    <$> seq 0 (num_charts (length subjects)).

Section rounding.
(** [round(2)] on a number, which is numpy's. *)
Variable round2 : Q → Q.

(** The charts of [plot_avg_marks_per_subject]. *)
Definition plot_avg_marks_per_subject (subject_avg : list SubjectAvg.row)
    (title_prefix : string) : list (chart (string * string * option Q)) :=
  let subject_avg_melted :=
    melt (SubjectAvg.SUBJECT_CODE <$> subject_avg)
         [("INTERNAL", SubjectAvg.INTERNAL <$> subject_avg);
          ("EXTERNAL", SubjectAvg.EXTERNAL <$> subject_avg);
          ("TOTAL", SubjectAvg.TOTAL <$> subject_avg)] in
  let subject_avg_melted :=
    (λ e : string * string * option Q, (e.1, round2 <$> e.2)) <$> subject_avg_melted in
  let subjects := SubjectAvg.SUBJECT_CODE <$> subject_avg in
  (λ i, mkChart (part_title title_prefix i)
                (filter (λ e, e.1.1 ∈ subset_subjects subjects i) subject_avg_melted))
    <$> seq 0 (num_charts (length subjects)).

End rounding.

(** The charts of [plot_grade_distribution_per_subject]. *)
Definition plot_grade_distribution_per_subject
    (subject_grade_counts : list GradeCount.row) (title_prefix : string)
  : list (chart GradeCount.row) :=
  let subjects := unique (GradeCount.SUBCODE <$> subject_grade_counts) in
  (λ i, mkChart (part_title title_prefix i)
                (filter (λ e, GradeCount.SUBCODE e ∈ subset_subjects subjects i)
                        subject_grade_counts))
    <$> seq 0 (num_charts (length subjects)).

(** *** The selection *)

(** A row of an open elective: its subject code starts with no department
    prefix, or is in one of the lists of [extra_subjects]. *)
Definition open_elective (r : Row) : Prop :=
  startswith (DEPT_PREFIX.*2) (SUBCODE r) = false
  ∨ SUBCODE r ∈ mjoin (extra_subjects.*2).

(** What the select boxes ask of a row. *)
Definition semester_selected (w : widgets) (r : Row) : Prop :=
  match semester_int (selected_semester w) with
  | Some n => SEM r = n
  | None => True
  end.

Definition department_selected (w : widgets) (r : Row) : Prop :=
  if decide (selected_department w = "Others (Open Elective)") then open_elective r
  else if decide (selected_department w = "Overall") then True
  else DEPNAME r = selected_department w
       ∧ (branch_box w = "All" ∨ BRNAME r = branch_box w).

(** The options of the department box and, for a specific department, of
    the branch box: the names of the sheet in ascending order, after the
    fixed entries. *)
Definition department_options (df : list Row) : list string :=
  (["Overall"; "Others (Open Elective)"]
     ++ merge_sort String.le (unique (DEPNAME <$> df)))%list.

Definition branch_options (df : list Row) (selected_department : string) : list string :=
  "All" :: merge_sort String.le
             (unique (BRNAME <$> filter (λ r, DEPNAME r = selected_department) df)).

(** *** Arrears of a student *)

(** The number of rows of a student with the grade "U". *)
Definition failures (table : list Row) (r : Z) : nat :=
  length (filter (λ row, REGNO row = r ∧ GRADE row = "U") table).

(** ** Part VII. Facts about the pandas operations *)

Open Scope list_scope.

Section list_facts.
Context {A B : Type}.

Lemma filter_id (P : A → Prop) `{!∀ x, Decision (P x)} (l : list A) :
  (∀ x, x ∈ l → P x) → filter P l = l.
Proof.
  induction l as [|y t IHt]; intros HP; [done|].
  rewrite filter_cons_True by (apply HP; left).
  f_equal. apply IHt. intros x Hx. apply HP. by right.
Qed.

Lemma filter_none (P : A → Prop) `{!∀ x, Decision (P x)} (l : list A) :
  (∀ x, x ∈ l → ¬ P x) → filter P l = [].
Proof.
  induction l as [|y t IHt]; intros HP; [done|].
  rewrite filter_cons_False by (apply HP; left).
  apply IHt. intros x Hx. apply HP. by right.
Qed.

Lemma filter_fmap (f : A → B) (P : B → Prop) `{!∀ y, Decision (P y)} (l : list A) :
  filter P (f <$> l) = f <$> filter (λ x, P (f x)) l.
Proof.
  induction l as [|x t IHt]; [done|].
  rewrite fmap_cons, !filter_cons. destruct (decide (P (f x))); simpl; by rewrite IHt.
Qed.

Lemma filter_fmap_iff (f : A → B) (P : B → Prop) (Q : A → Prop)
    `{!∀ y, Decision (P y), !∀ x, Decision (Q x)} (l : list A) :
  (∀ x, Q x ↔ P (f x)) → filter P (f <$> l) = f <$> filter Q l.
Proof.
  intros HPQ. rewrite filter_fmap. f_equal. apply list_filter_iff.
  intros x. by rewrite HPQ.
Qed.

Lemma zip_fmap_self (f : A → B) (l : list A) :
  zip l (f <$> l) = (λ x, (x, f x)) <$> l.
Proof. induction l as [|x t IHt]; [done|]. cbn. f_equal. exact IHt. Qed.

Lemma length_filter_Permutation (P : A → Prop) `{!∀ x, Decision (P x)} (l k : list A) :
  l ≡ₚ k → length (filter P l) = length (filter P k).
Proof. intros Hlk. by rewrite Hlk. Qed.

End list_facts.

Lemma filter_ext_elem {A} (P Q : A → Prop) `{!∀ x, Decision (P x), !∀ x, Decision (Q x)}
    (l : list A) :
  (∀ x, x ∈ l → P x ↔ Q x) → filter P l = filter Q l.
Proof.
  induction l as [|x l IHl]; intros HPQ; [done|].
  rewrite !filter_cons, IHl by (intros y Hy; apply HPQ; by right).
  destruct (decide (P x)) as [HP|HP], (decide (Q x)) as [HQ|HQ]; try done.
  - destruct HQ. by apply (HPQ x); [left|].
  - destruct HP. by apply (HPQ x); [left|].
Qed.

Lemma omap_filter_None {A B} (f : A → option B) (P : A → Prop) `{!∀ x, Decision (P x)}
    (l : list A) :
  (∀ x, x ∈ l → ¬ P x → f x = None) → omap f (filter P l) = omap f l.
Proof.
  induction l as [|x l IHl]; intros Hf; [done|].
  rewrite filter_cons. destruct (decide (P x)) as [HP|HP]; cbn.
  - rewrite IHl; [done|]. intros y Hy. apply Hf. by right.
  - rewrite (Hf x) by (done || left). apply IHl. intros y Hy. apply Hf. by right.
Qed.

Lemma sum_list_cons (x : nat) (l : list nat) : sum_list (x :: l) = x + sum_list l.
Proof. reflexivity. Qed.

Section unique_facts.
Context {A : Type} `{EqDecision A}.

Lemma elem_of_unique (l : list A) (x : A) : x ∈ unique l ↔ x ∈ l.
Proof.
  induction l as [|y t IHt]; simpl; [done|].
  rewrite !elem_of_cons, list_elem_of_filter, IHt.
  destruct (decide (x = y)); tauto.
Qed.

Lemma NoDup_unique (l : list A) : NoDup (unique l).
Proof.
  induction l as [|y t IHt]; simpl; [constructor|].
  constructor; [|by apply NoDup_filter].
  rewrite list_elem_of_filter. tauto.
Qed.

Lemma unique_filter (P : A → Prop) `{!∀ x, Decision (P x)} (l : list A) :
  unique (filter P l) = filter P (unique l).
Proof.
  induction l as [|y t IHt]; simpl; [done|].
  rewrite filter_cons. destruct (decide (P y)) as [Hy|Hy].
  - simpl. rewrite filter_cons_True by done. f_equal.
    rewrite IHt. rewrite !list_filter_filter. apply list_filter_iff. tauto.
  - rewrite filter_cons_False by done. rewrite IHt.
    rewrite list_filter_filter. apply list_filter_iff.
    intros x. split; [|tauto]. intros Hx. split; [done|]. by intros ->.
Qed.

Lemma unique_NoDup (l : list A) : NoDup l → unique l = l.
Proof.
  induction 1 as [|x l Hx Hl IHl]; simpl; [done|]. rewrite IHl. f_equal.
  apply filter_id. intros y Hy ->. done.
Qed.

(** The number of distinct values of a list. *)
Lemma length_unique `{!Countable A} (l : list A) :
  length (unique l) = size (list_to_set l : gset A).
Proof.
  rewrite <- (size_list_to_set (C:=gset A) (unique l)) by apply NoDup_unique.
  f_equal. apply set_eq. intros x.
  by rewrite !elem_of_list_to_set, elem_of_unique.
Qed.

(** Over distinct values, the occurrences of each add up to the rows that
    take one of them. *)
Lemma sum_occurrences {R : Type} (f : R → A) (P : R → Prop) `{!∀ r, Decision (P r)}
    (vals : list A) (t : list R) :
  NoDup vals →
  sum_list ((λ v, length (filter (λ r, P r ∧ f r = v) t)) <$> vals)
  = length (filter (λ r, P r ∧ f r ∈ vals) t).
Proof.
  induction 1 as [|v vals Hv Hvals IHvals].
  - symmetry. rewrite filter_none; [done|]. intros r _ [_ Hr]. by apply elem_of_nil in Hr.
  - rewrite fmap_cons, sum_list_cons, IHvals. clear IHvals.
    induction t as [|r t IHt]; [done|].
    rewrite !filter_cons.
    destruct (decide (P r ∧ f r = v)) as [[HP Heq]|Hne].
    + rewrite decide_False by (intros [_ Hin]; by rewrite Heq in Hin).
      rewrite decide_True by (split; [done|rewrite Heq; left]).
      simpl. by rewrite IHt.
    + destruct (decide (P r ∧ f r ∈ vals)) as [[HP Hin]|Hnin].
      * rewrite decide_True by (split; [done|by right]).
        simpl. rewrite <- IHt. lia.
      * rewrite decide_False; [done|].
        intros [HP [Heq|Hin]%elem_of_cons]; tauto.
Qed.

Lemma insert_by_count_Permutation (x : A * nat) (l : list (A * nat)) :
  insert_by_count x l ≡ₚ x :: l.
Proof.
  induction l as [|y t IHt]; simpl; [done|]. case_decide; [done|].
  by rewrite IHt, Permutation_swap.
Qed.

Lemma sort_by_count_Permutation (l : list (A * nat)) : sort_by_count l ≡ₚ l.
Proof.
  induction l as [|x l IHl]; simpl; [done|].
  by rewrite insert_by_count_Permutation, IHl.
Qed.

Lemma HdRel_insert_by_count (x y : A * nat) (l : list (A * nat)) :
  by_count_desc y x → HdRel by_count_desc y l →
  HdRel by_count_desc y (insert_by_count x l).
Proof.
  intros Hyx Hl. destruct l as [|z t]; simpl; [by constructor|].
  case_decide; constructor; [done|]. by inversion Hl.
Qed.

Lemma Sorted_insert_by_count (x : A * nat) (l : list (A * nat)) :
  Sorted by_count_desc l → Sorted by_count_desc (insert_by_count x l).
Proof.
  induction 1 as [|y t Ht IHt Hy]; simpl; [by repeat constructor|].
  case_decide as Hxy.
  - by repeat constructor.
  - constructor; [done|]. apply HdRel_insert_by_count; [|done].
    unfold by_count_desc in *. lia.
Qed.

Lemma Sorted_sort_by_count (l : list (A * nat)) :
  Sorted by_count_desc (sort_by_count l).
Proof.
  induction l as [|x l IHl]; simpl; [constructor|].
  by apply Sorted_insert_by_count.
Qed.

Lemma sum_value_counts (l : list A) : sum_list ((value_counts l).*2) = length l.
Proof.
  unfold value_counts. rewrite sort_by_count_Permutation.
  rewrite <- list_fmap_compose.
  rewrite <- (filter_id (λ r, True ∧ id r ∈ unique l) l) at 2
    by (intros x Hx; split; [done|by apply elem_of_unique]).
  rewrite <- (sum_occurrences id (λ _, True) (unique l) l) by apply NoDup_unique.
  f_equal. apply list_fmap_ext. intros _ v _. simpl. f_equal.
  apply list_filter_iff. intros x. simpl. tauto.
Qed.

Lemma elem_of_value_counts (l : list A) (v : A) (n : nat) :
  (v, n) ∈ value_counts l ↔ v ∈ l ∧ n = length (filter (λ x, x = v) l).
Proof.
  unfold value_counts. rewrite sort_by_count_Permutation.
  rewrite list_elem_of_fmap. split.
  - intros (w & Heq & Hw). simplify_eq. split; [by apply elem_of_unique|done].
  - intros [Hv ->]. exists v. split; [done|]. by apply elem_of_unique.
Qed.

End unique_facts.

Section keyed_facts.
Context {K E : Type} `{EqDecision K}.

(** A table with one entry per label of a duplicate-free list has exactly
    one entry for each of its labels. *)
Lemma filter_label (f : K → E) (label : E → K) (l : list K) (k : K) :
  (∀ x, label (f x) = x) → NoDup l →
  filter (λ e, label e = k) (f <$> l) = if decide (k ∈ l) then [f k] else [].
Proof.
  intros Hlabel. induction 1 as [|x l Hx Hl IHl]; [done|].
  rewrite fmap_cons, filter_cons, Hlabel, IHl.
  destruct (decide (x = k)) as [->|Hne].
  - rewrite (decide_False (P:=k ∈ l)) by done.
    rewrite (decide_True (P:=k ∈ k :: l)); [done|left].
  - destruct (decide (k ∈ l)) as [Hin|Hnin].
    + rewrite decide_True; [done|by right].
    + rewrite decide_False; [done|]. intros [->|?]%elem_of_cons; done.
Qed.

Lemma loc_fmap {V} (g : K → V) (l : list K) (k : K) :
  loc ((λ x, (x, g x)) <$> l) k = if decide (k ∈ l) then Some (g k) else None.
Proof.
  induction l as [|x l IHl]; [done|].
  rewrite fmap_cons. simpl. destruct (decide (x = k)) as [->|Hne].
  - rewrite decide_True; [done|left].
  - rewrite IHl. destruct (decide (k ∈ l)) as [Hin|Hnin].
    + rewrite decide_True; [done|by right].
    + rewrite decide_False; [done|]. intros [->|?]%elem_of_cons; done.
Qed.

End keyed_facts.

Section groupby_facts.
Context {R K : Type} `{EqDecision K} (le : relation K) `{!RelDecision le}.
Context (key : R → option K).

Lemma elem_of_group_keys (t : list R) (k : K) :
  k ∈ group_keys le key t ↔ ∃ r, r ∈ t ∧ key r = Some k.
Proof.
  unfold group_keys. by rewrite merge_sort_Permutation, elem_of_unique, list_elem_of_omap.
Qed.

Lemma NoDup_group_keys (t : list R) : NoDup (group_keys le key t).
Proof. unfold group_keys. rewrite merge_sort_Permutation. apply NoDup_unique. Qed.

Lemma length_group_keys `{!Countable K} (t : list R) :
  length (group_keys le key t) = size (list_to_set (omap key t) : gset K).
Proof. unfold group_keys. by rewrite merge_sort_Permutation, length_unique. Qed.

Lemma elem_of_group (t : list R) (k : K) (r : R) :
  r ∈ group key t k ↔ r ∈ t ∧ key r = Some k.
Proof. unfold group. rewrite list_elem_of_filter. tauto. Qed.

Lemma group_empty (t : list R) (k : K) : k ∉ group_keys le key t → group key t k = [].
Proof.
  intros Hk. apply filter_none. intros r Hr Hkey. apply Hk, elem_of_group_keys. eauto.
Qed.

Lemma group_nonempty (t : list R) (k : K) : k ∈ group_keys le key t → group key t k ≠ [].
Proof.
  intros (r & Hr & Hkey)%elem_of_group_keys Hnil.
  assert (r ∈ group key t k) as Hin by (by apply elem_of_group).
  rewrite Hnil in Hin. by apply elem_of_nil in Hin.
Qed.

Lemma loc_groupby {V} (agg : list R → V) (t : list R) (k : K) :
  loc (groupby le key agg t) k
  = if decide (k ∈ group_keys le key t) then Some (agg (group key t k)) else None.
Proof. unfold groupby. apply (loc_fmap (λ x, agg (group key t x))). Qed.

(** A size that is looked up and filled with 0 is the size of the group,
    whether the label occurs or not. *)
Lemma loc_groupby_size (t : list R) (k : K) :
  default 0 (loc (groupby_size le key t) k) = length (group key t k).
Proof.
  unfold groupby_size. rewrite loc_groupby. case_decide as Hk; [done|].
  by rewrite group_empty.
Qed.

Lemma groupby_labels {V} (agg : list R → V) (t : list R) :
  (groupby le key agg t).*1 = group_keys le key t.
Proof.
  unfold groupby. rewrite <- list_fmap_compose. apply list_fmap_id.
Qed.

End groupby_facts.

(** ** Part VIII. What the aggregation calls compute and assign *)

(** The statements of an aggregation function, one at a time. *)
Lemma agg_frame {T} (k : DataFrame → Agg T) (df : DataFrame) :
  (frame ≫= k) df = k df df.
Proof. reflexivity. Qed.

Lemma agg_assign_Pass {T} (col : list bool) (k : () → Agg T) (df : DataFrame) :
  (assign_Pass col ≫= k) df = k () (mkDF (rows df) (Some col)).
Proof. reflexivity. Qed.

Lemma agg_column_Pass {T} (k : list bool → Agg T) (table : list Row) (col : list bool) :
  (column_Pass ≫= k) (mkDF table (Some col)) = k col (mkDF table (Some col)).
Proof. reflexivity. Qed.

Lemma agg_assign_rows {T} (new_rows : list Row) (k : () → Agg T) (df : DataFrame) :
  (assign_rows new_rows ≫= k) df = k () (mkDF new_rows (Pass df)).
Proof. reflexivity. Qed.

Lemma agg_ret {T} (x : T) (df : DataFrame) : (mret x : Agg T) df = (df, inr x).
Proof. reflexivity. Qed.

Ltac run_agg :=
  repeat first
    [ rewrite agg_frame | rewrite agg_assign_Pass | rewrite agg_column_Pass
    | rewrite agg_assign_rows | rewrite agg_ret ];
  cbn [rows Pass].

Lemma determine_pass_fail_run (df : DataFrame) :
  determine_pass_fail df
  = (mkDF (rows df) (Some (grade_not_U <$> rows df)),
     inr (student_pass_fail (with_Pass (rows df)))).
Proof.
  unfold determine_pass_fail, with_Pass. run_agg. by rewrite zip_fmap_self.
Qed.

Lemma grade_not_U_true (r : Row) : grade_not_U r = true ↔ GRADE r ≠ "U".
Proof. unfold grade_not_U. apply bool_decide_eq_true. Qed.

Lemma elem_of_keys_REGNO (table : list Row) (r : Z) :
  r ∈ group_keys Z.le by_REGNO (with_Pass table) ↔ r ∈ REGNO <$> table.
Proof.
  rewrite elem_of_group_keys, list_elem_of_fmap. unfold with_Pass, by_REGNO. split.
  - intros (rp & (row & -> & Hrow)%list_elem_of_fmap & [= <-]). eauto.
  - intros (row & -> & Hrow). exists (row, grade_not_U row).
    split; [|done]. apply list_elem_of_fmap. eauto.
Qed.

(** The flag of a student is true exactly when none of the student's rows
    has the grade "U". *)
Lemma all_Pass_iff (table : list Row) (r : Z) :
  forallb snd (group by_REGNO (with_Pass table) r) = true
  ↔ ∀ row, row ∈ table → REGNO row = r → GRADE row ≠ "U".
Proof.
  rewrite <- Is_true_true, forallb_True, Forall_forall. split.
  - intros Hall row Hrow Hr. apply grade_not_U_true, Is_true_true.
    apply (Hall (row, grade_not_U row)). apply elem_of_group. split.
    + apply list_elem_of_fmap. eauto.
    + unfold by_REGNO. simpl. by rewrite Hr.
  - intros Hall rp [(row & -> & Hrow)%list_elem_of_fmap [= Hr]]%elem_of_group.
    simpl in *. apply Is_true_true, grade_not_U_true. by apply Hall.
Qed.

(** The flag is false exactly when one of the student's rows has the grade "U". *)
Lemma some_U_iff (table : list Row) (r : Z) :
  forallb snd (group by_REGNO (with_Pass table) r) = false
  ↔ ∃ row, row ∈ table ∧ REGNO row = r ∧ GRADE row = "U".
Proof.
  unfold group, with_Pass. induction table as [|row t IHt].
  - split; [done|]. intros (row & Hrow & _). by apply elem_of_nil in Hrow.
  - rewrite fmap_cons, filter_cons. unfold by_REGNO at 1. simpl.
    destruct (decide (Some (REGNO row) = Some r)) as [[= Hr]|Hne].
    + simpl. rewrite andb_false_iff, IHt. unfold grade_not_U.
      rewrite bool_decide_eq_false. split.
      * intros [Hu|(row' & Hrow' & Hr' & Hu')].
        -- exists row. split; [left|]. split; [done|].
           destruct (decide (GRADE row = "U")); [done|by destruct Hu].
        -- exists row'. split; [by right|done].
      * intros (row' & [->|Hrow']%elem_of_cons & Hr' & Hu');
          [left; intros Hn; by apply Hn|].
        right. eauto.
    + rewrite IHt. split.
      * intros (row' & Hrow' & Hrest). exists row'. split; [by right|done].
      * intros (row' & [->|Hrow']%elem_of_cons & Hr' & Hu'); [by rewrite Hr' in Hne|].
        eauto.
Qed.

Lemma student_pass_fail_rows (table : list Row) :
  student_pass_fail (with_Pass table)
  = status_row table <$> group_keys Z.le by_REGNO (with_Pass table).
Proof.
  unfold student_pass_fail, groupby. rewrite <- list_fmap_compose. done.
Qed.

(** C1. For every frame and every registration id: when the id occurs in
    the frame, the table of [determine_pass_fail] has exactly one entry for
    it, labelled "Fail" iff one of the student's rows has the grade "U" and
    "Pass" iff none has; when the id has no row, the table has no entry
    for it. *)
Theorem determine_pass_fail_labels (df : DataFrame) :
  ∃ t, (determine_pass_fail df).2 = inr t ∧
    ∀ r : Z,
      (r ∈ REGNO <$> rows df →
         ∃ e, filter (λ e, StudentStatus.REGNO e = r) t = [e] ∧
           (StudentStatus.Status e = "Fail"
              ↔ ∃ row, row ∈ rows df ∧ REGNO row = r ∧ GRADE row = "U") ∧
           (StudentStatus.Status e = "Pass"
              ↔ ∀ row, row ∈ rows df → REGNO row = r → GRADE row ≠ "U")) ∧
      (r ∉ REGNO <$> rows df → filter (λ e, StudentStatus.REGNO e = r) t = []).
Proof.
  rewrite determine_pass_fail_run. eexists. split; [reflexivity|].
  intros r. rewrite student_pass_fail_rows.
  rewrite (filter_label (status_row (rows df)) StudentStatus.REGNO)
    by (done || apply NoDup_group_keys).
  split; intros Hr.
  - rewrite decide_True by (by apply elem_of_keys_REGNO).
    eexists. split; [reflexivity|].
    pose proof (all_Pass_iff (rows df) r) as Hall.
    pose proof (some_U_iff (rows df) r) as Hsome.
    unfold status_row. simpl.
    destruct (forallb snd (group by_REGNO (with_Pass (rows df)) r)) eqn:Hb; simpl.
    + split; split; try done.
      * intros HU. by apply Hsome in HU.
      * intros _. by apply Hall.
    + split; split; try done.
      * intros _. by apply Hsome.
      * intros Hnone. by apply Hall in Hnone.
  - rewrite decide_False; [done|]. by rewrite elem_of_keys_REGNO.
Qed.

(** *** The grade distribution *)

Lemma group_SUBCODE_GRADE (table : list Row) (s g : string) :
  group by_SUBCODE_GRADE table (s, g) = rows_with table s g.
Proof.
  unfold group, rows_with, by_SUBCODE_GRADE. apply list_filter_iff.
  intros r. split; [intros [= <- <-]; by split|intros [<- <-]; reflexivity].
Qed.

Lemma grade_distribution_run (df : DataFrame) :
  grade_distribution_per_subject df
  = (df, inr (unique (SUBCODE <$> rows df)
                ≫= λ s, grade_row (rows df) s <$> grade_order)).
Proof.
  unfold grade_distribution_per_subject. run_agg. do 2 f_equal.
  unfold reindex, from_product. rewrite <- list_fmap_compose.
  generalize (unique (SUBCODE <$> rows df)). intros subjects.
  induction subjects as [|s subjects IHs]; [done|].
  rewrite !bind_cons, fmap_app, IHs. f_equal.
  rewrite <- list_fmap_compose. apply list_fmap_ext. intros _ g _. simpl.
  unfold grade_row. f_equal.
  rewrite (loc_groupby_size _ by_SUBCODE_GRADE). by rewrite group_SUBCODE_GRADE.
Qed.

Lemma length_blocks {A B} (f : A → list B) (n : nat) (l : list A) :
  (∀ x, length (f x) = n) → length (l ≫= f) = length l * n.
Proof.
  intros Hf. induction l as [|x l IHl]; [done|].
  rewrite bind_cons, length_app, Hf, IHl. simpl. lia.
Qed.

(** In a table made of one block per subject, the entries of a subject are
    its block. *)
Lemma filter_block (table : list Row) (subjects : list string) (s : string) :
  NoDup subjects → s ∈ subjects →
  filter (λ e, GradeCount.SUBCODE e = s)
         (subjects ≫= λ s', grade_row table s' <$> grade_order)
  = grade_row table s <$> grade_order.
Proof.
  induction 1 as [|x l Hx Hl IHl]; intros Hs; [by apply elem_of_nil in Hs|].
  rewrite bind_cons, filter_app. destruct (decide (x = s)) as [->|Hne].
  - rewrite filter_id by (by intros e (g & -> & _)%list_elem_of_fmap).
    rewrite filter_none; [by rewrite app_nil_r|].
    intros e (s' & He & Hs')%list_elem_of_bind.
    apply list_elem_of_fmap in He as (g & -> & _). simpl. by intros ->.
  - rewrite filter_none by (by intros e (g & -> & _)%list_elem_of_fmap).
    apply IHl. by apply elem_of_cons in Hs as [->|Hs].
Qed.

Lemma NoDup_grade_order : NoDup grade_order.
Proof. apply (bool_decide_unpack (NoDup grade_order)). by vm_compute. Qed.

Lemma grade_counts_sum (table : list Row) (s : string) :
  sum_list (GradeCount.Count <$> (grade_row table s <$> grade_order))
  = length (filter (λ r, SUBCODE r = s ∧ GRADE r ∈ grade_order) table).
Proof.
  rewrite <- list_fmap_compose.
  by rewrite <- (sum_occurrences GRADE (λ r, SUBCODE r = s)) by apply NoDup_grade_order.
Qed.

(** The table for any frame, also one with grades other than the seven:
    a row with another grade is in none of the counts. *)
Lemma grade_distribution_entries (df : DataFrame) :
  ∃ t, (grade_distribution_per_subject df).2 = inr t ∧
    length t = size (list_to_set (SUBCODE <$> rows df) : gset string) * 7 ∧
    ∀ s, s ∈ SUBCODE <$> rows df →
      let of_s := filter (λ e, GradeCount.SUBCODE e = s) t in
      GradeCount.GRADE <$> of_s = grade_order ∧
      (∀ e, e ∈ of_s →
         0 ≤ GradeCount.Count e ∧
         GradeCount.Count e
         = length (filter (λ r, SUBCODE r = s ∧ GRADE r = GradeCount.GRADE e) (rows df))) ∧
      sum_list (GradeCount.Count <$> of_s)
      = length (filter (λ r, SUBCODE r = s ∧ GRADE r ∈ grade_order) (rows df)).
Proof.
  rewrite grade_distribution_run. eexists. split; [reflexivity|]. split.
  - rewrite (length_blocks _ 7) by (intros s; by rewrite length_fmap).
    by rewrite length_unique.
  - intros s Hs. cbv zeta.
    rewrite filter_block by (apply NoDup_unique || by apply elem_of_unique).
    split; [|split].
    + rewrite <- list_fmap_compose. apply list_fmap_id.
    + intros e (g & -> & _)%list_elem_of_fmap. simpl. split; [lia|done].
    + apply grade_counts_sum.
Qed.

(** C2. For every frame whose grades are among the seven fixed grades, the
    table of [grade_distribution_per_subject] has (number of distinct
    subject codes) times 7 rows; for every subject code of the frame its
    entries are the seven grades in the fixed order, each once, each with
    a count that is at least 0 and is the number of rows of the subject
    with that grade; and the seven counts add up to the number of rows of
    the subject. *)
Theorem grade_distribution_dense (df : DataFrame) :
  (∀ r, r ∈ rows df → GRADE r ∈ grade_order) →
  ∃ t, (grade_distribution_per_subject df).2 = inr t ∧
    length t = size (list_to_set (SUBCODE <$> rows df) : gset string) * 7 ∧
    ∀ s, s ∈ SUBCODE <$> rows df →
      let of_s := filter (λ e, GradeCount.SUBCODE e = s) t in
      GradeCount.GRADE <$> of_s = grade_order ∧
      (∀ e, e ∈ of_s →
         0 ≤ GradeCount.Count e ∧
         GradeCount.Count e
         = length (filter (λ r, SUBCODE r = s ∧ GRADE r = GradeCount.GRADE e) (rows df))) ∧
      sum_list (GradeCount.Count <$> of_s)
      = length (filter (λ r, SUBCODE r = s) (rows df)).
Proof.
  intros Hgrades.
  destruct (grade_distribution_entries df) as (t & Ht & Hlen & Hsubjects).
  exists t. split; [done|]. split; [done|]. intros s Hs.
  destruct (Hsubjects s Hs) as (Horder & Hcounts & Hsum). cbv zeta.
  split; [done|]. split; [done|].
  etrans; [apply Hsum|]. f_equal. apply filter_ext_elem.
  intros r Hr. split; [tauto|]. intros Hsub. split; [done|]. by apply Hgrades.
Qed.

Lemma grade_distribution_dense_witness :
  ∃ t, (grade_distribution_per_subject (mkDF sample None)).2 = inr t ∧
    length t = size (list_to_set (SUBCODE <$> sample) : gset string) * 7 ∧
    ∀ s, s ∈ SUBCODE <$> sample →
      let of_s := filter (λ e, GradeCount.SUBCODE e = s) t in
      GradeCount.GRADE <$> of_s = grade_order ∧
      (∀ e, e ∈ of_s →
         0 ≤ GradeCount.Count e ∧
         GradeCount.Count e
         = length (filter (λ r, SUBCODE r = s ∧ GRADE r = GradeCount.GRADE e) sample)) ∧
      sum_list (GradeCount.Count <$> of_s)
      = length (filter (λ r, SUBCODE r = s) sample).
Proof.
  apply (grade_distribution_dense (mkDF sample None)).
  intros r Hr. cbn [rows] in Hr. unfold sample in Hr.
  repeat (apply elem_of_cons in Hr as [->|Hr]; [by apply (bool_decide_unpack _)|]).
  by apply elem_of_nil in Hr.
Defined.

(** When every grade of the frame is one of the seven, the seven counts of
    a subject add up to the number of rows of the subject. *)
Theorem grade_distribution_sums_to_rows (df : DataFrame) :
  (∀ r, r ∈ rows df → GRADE r ∈ grade_order) →
  ∃ t, (grade_distribution_per_subject df).2 = inr t ∧
    ∀ s, s ∈ SUBCODE <$> rows df →
      sum_list (GradeCount.Count <$> filter (λ e, GradeCount.SUBCODE e = s) t)
      = length (filter (λ r, SUBCODE r = s) (rows df)).
Proof.
  intros Hgrades. rewrite grade_distribution_run. eexists. split; [reflexivity|].
  intros s Hs.
  rewrite filter_block by (apply NoDup_unique || by apply elem_of_unique).
  rewrite grade_counts_sum. f_equal. apply filter_ext_elem.
  intros r Hr. split; [tauto|]. intros Hsub. split; [done|]. by apply Hgrades.
Qed.

Lemma grade_distribution_sums_to_rows_witness :
  ∃ t, (grade_distribution_per_subject (mkDF sample None)).2 = inr t ∧
    ∀ s, s ∈ SUBCODE <$> sample →
      sum_list (GradeCount.Count <$> filter (λ e, GradeCount.SUBCODE e = s) t)
      = length (filter (λ r, SUBCODE r = s) sample).
Proof.
  apply (grade_distribution_sums_to_rows (mkDF sample None)).
  intros r Hr. cbn [rows] in Hr. unfold sample in Hr.
  repeat (apply elem_of_cons in Hr as [->|Hr]; [by apply (bool_decide_unpack _)|]).
  by apply elem_of_nil in Hr.
Defined.

(** *** The arrear distribution *)

Lemma subjects_failed_run (df : DataFrame) :
  subjects_failed df
  = (df, inr ((λ e, Arrears.mk e.1 e.2) <$> value_counts (arrears_per_student (rows df)))).
Proof. unfold subjects_failed. by run_agg. Qed.

Lemma omap_Some {A B} (f : A → B) (l : list A) : omap (λ x, Some (f x)) l = f <$> l.
Proof. induction l as [|x l IHl]; [done|]. cbn. by rewrite IHl. Qed.

Lemma length_arrears_per_student (table : list Row) :
  length (arrears_per_student table)
  = size (list_to_set (REGNO <$> failed_rows table) : gset Z).
Proof.
  unfold arrears_per_student. rewrite length_fmap. unfold groupby.
  rewrite length_fmap, (length_group_keys Z.le REGNO_of (failed_rows table)).
  unfold REGNO_of. by rewrite omap_Some.
Qed.

Lemma arrears_per_student_pos (table : list Row) (n : nat) :
  n ∈ arrears_per_student table → n ≠ 0.
Proof.
  unfold arrears_per_student, groupby. rewrite <- list_fmap_compose.
  intros (k & -> & Hk)%list_elem_of_fmap. simpl.
  apply group_nonempty in Hk. by destruct (group REGNO_of (failed_rows table) k).
Qed.

(** C4. For every frame, the column "Student Count" of the table of
    [subjects_failed] adds up to the number of distinct registration ids
    that have a row with the grade "U", and no entry of the table is for
    zero failed subjects. *)
Theorem subjects_failed_histogram (df : DataFrame) :
  ∃ t, (subjects_failed df).2 = inr t ∧
    sum_list (Arrears.Student_Count <$> t)
    = size (list_to_set (REGNO <$> filter (λ r, GRADE r = "U") (rows df)) : gset Z) ∧
    ∀ e, e ∈ t → Arrears.Subjects_Failed e ≠ 0.
Proof.
  rewrite subjects_failed_run. eexists. split; [reflexivity|]. split.
  - rewrite <- list_fmap_compose.
    etrans; [apply (sum_value_counts (arrears_per_student (rows df)))|]. apply length_arrears_per_student.
  - intros e ([v n] & -> & Hvn)%list_elem_of_fmap. simpl.
    apply elem_of_value_counts in Hvn as [Hv _].
    by apply arrears_per_student_pos in Hv.
Qed.

(** *** Subject-wise pass and fail counts *)

Lemma subject_wise_pass_fail_run (df : DataFrame) :
  subject_wise_pass_fail df
  = set_columns
      (unstack String.le bool_le
         (groupby_size (lex_le String.le bool_le) by_SUBCODE_Pass (with_Pass (rows df))) 0)
      (mkDF (rows df) (Some (grade_not_U <$> rows df))).
Proof.
  unfold subject_wise_pass_fail, with_Pass. run_agg. by rewrite zip_fmap_self.
Qed.

(** On the frame of one row that is a pass, the wide frame has the two
    columns SUBCODE and True, and the assignment of three labels raises. *)
Example subject_wise_pass_fail_without_failures :
  (subject_wise_pass_fail (mkDF [passed_row] None)).2 = inl (LengthMismatch 2 3).
Proof. reflexivity. Qed.

(** *** Department-wise pass and fail counts *)

Lemma bind_ext_elem {A B} (f g : A → list B) (l : list A) :
  (∀ x, x ∈ l → f x = g x) → l ≫= f = l ≫= g.
Proof.
  induction l as [|x l IHl]; intros Hfg; [done|].
  rewrite !bind_cons. rewrite (Hfg x) by left. f_equal.
  apply IHl. intros y Hy. apply Hfg. by right.
Qed.

(** Joining the rows of a table to the duplicate-free list of their keys
    rearranges the table. *)
Lemma bind_filter_Permutation {A K} `{EqDecision K} (label : A → K)
    (keys : list K) (l : list A) :
  NoDup keys → (∀ x, x ∈ l → label x ∈ keys) →
  keys ≫= (λ k, filter (λ x, label x = k) l) ≡ₚ l.
Proof.
  intros Hkeys. revert l. induction Hkeys as [|k keys Hk Hkeys IH]; intros l Hl.
  - destruct l as [|x l]; [done|]. specialize (Hl x). rewrite elem_of_nil in Hl.
    destruct Hl. left.
  - rewrite bind_cons.
    etrans; [|apply (filter_app_complement (λ x, label x = k) l)].
    apply Permutation_app; [done|].
    rewrite <- (IH (filter (λ x, ¬ label x = k) l)).
    + erewrite bind_ext_elem; [done|]. intros k' Hk'. simpl.
      rewrite list_filter_filter. apply list_filter_iff. intros x.
      split; [|tauto]. intros ->. split; [done|]. by intros ->.
    + intros x [Hx Hin]%list_elem_of_filter.
      apply Hl in Hin. by apply elem_of_cons in Hin as [?|?].
Qed.

(** Sorted lists of distinct keys with the same members are equal. *)
Lemma sorted_keys_ext {K} `{EqDecision K} (le : relation K) `{!RelDecision le}
    `{!PartialOrder le, !Total le} (l1 l2 : list K) :
  (∀ x, x ∈ l1 ↔ x ∈ l2) →
  merge_sort le (unique l1) = merge_sort le (unique l2).
Proof.
  intros Hmem. apply (Sorted_unique le); try apply (Sorted_merge_sort le).
  rewrite !merge_sort_Permutation.
  apply NoDup_Permutation; try apply NoDup_unique.
  intros x. by rewrite !elem_of_unique.
Qed.

Section pivot_facts.
Context {R K C : Type} `{EqDecision K, EqDecision C}.
Context (leK : relation K) (leC : relation C) `{!RelDecision leK, !RelDecision leC}.
Context (key : R → option (K * C)).

(** The wide form of group sizes, reindexed to given columns: every cell is
    the size of the group of its row and column labels, 0 when there is no
    such group. *)
Lemma reindex_unstack_sizes (t : list R) (new_columns : list C) :
  let sizes := groupby_size (lex_le leK leC) key t in
  reindex_columns (unstack leK leC sizes 0) new_columns 0
  = let rows := merge_sort leK (unique (sizes.*1.*1)) in
    mkPivot rows new_columns
      ((λ k, (λ c, length (group key t (k, c))) <$> new_columns) <$> rows).
Proof.
  intros sizes. unfold reindex_columns, unstack. cbn [index columns cells].
  f_equal. rewrite <- list_fmap_compose. apply list_fmap_ext. intros _ k _. simpl.
  apply list_fmap_ext. intros _ c _. rewrite zip_fmap_self.
  rewrite (loc_fmap (λ c, default 0 (loc sizes (k, c)))).
  unfold sizes. rewrite loc_groupby_size.
  case_decide as Hc; [done|]. simpl. symmetry.
  rewrite (group_empty (lex_le leK leC)); [done|].
  intros Hkc. apply Hc. rewrite merge_sort_Permutation, elem_of_unique.
  unfold groupby_size. rewrite groupby_labels.
  apply list_elem_of_fmap. by exists (k, c).
Qed.

Lemma elem_of_unstack_rows (t : list R) (k : K) :
  k ∈ (groupby_size (lex_le leK leC) key t).*1.*1 ↔ ∃ r c, r ∈ t ∧ key r = Some (k, c).
Proof.
  unfold groupby_size. rewrite groupby_labels, list_elem_of_fmap. split.
  - intros ([k' c] & -> & (r & Hr & Hkey)%elem_of_group_keys). eauto.
  - intros (r & c & Hr & Hkey). exists (k, c). split; [done|].
    apply elem_of_group_keys. eauto.
Qed.

End pivot_facts.

Lemma forallb_fmap {A B} (f : A → B) (g : B → bool) (l : list A) :
  forallb g (f <$> l) = forallb (λ x, g (f x)) l.
Proof. induction l as [|x l IHl]; [done|]. cbn. by rewrite <- IHl. Qed.

Lemma passed_group (table : list Row) (r : Z) :
  forallb snd (group by_REGNO (with_Pass table) r) = passed table r.
Proof.
  unfold group, with_Pass, passed. rewrite filter_fmap, forallb_fmap. simpl.
  f_equal. apply list_filter_iff. intros row. unfold by_REGNO. simpl.
  split; [by intros [= ->]|by intros ->].
Qed.

Lemma status_row_Status (table : list Row) (r : Z) :
  StudentStatus.Status (status_row table r) = status_of table r.
Proof. unfold status_row, status_of. simpl. by rewrite passed_group. Qed.

Lemma fmap_bind_blocks {A B C} (f : A → list B) (g : B → C) (l : list A) :
  g <$> (l ≫= f) = l ≫= (λ x, g <$> f x).
Proof.
  induction l as [|x l IHl]; [done|]. by rewrite !bind_cons, fmap_app, IHl.
Qed.

Lemma short_names_Permutation (table : list Row) :
  short_names table ≡ₚ short_name_of table <$> unique (REGNO_DEPNAME <$> table).
Proof.
  unfold short_names, merge_left. rewrite student_pass_fail_rows.
  set (pairs := unique (REGNO_DEPNAME <$> table)).
  set (keys := group_keys Z.le by_REGNO (with_Pass table)).
  rewrite list_fmap_bind, fmap_bind_blocks.
  trans (short_name_of table <$> (keys ≫= λ k, filter (λ p : Z * string, p.1 = k) pairs)).
  2: { apply fmap_Permutation, bind_filter_Permutation; [apply NoDup_group_keys|].
       intros [r d] (row & [= -> ->] & Hrow)%elem_of_unique%list_elem_of_fmap.
       apply elem_of_keys_REGNO, list_elem_of_fmap. eauto. }
  rewrite fmap_bind_blocks.
  erewrite bind_ext_elem; [done|]. intros k Hk. unfold compose. cbv beta.
  change (StudentStatus.REGNO (status_row table k)) with k.
  assert (filter (λ p : Z * string, p.1 = k) pairs ≠ []) as Hne.
  { apply elem_of_keys_REGNO, list_elem_of_fmap in Hk as (row & -> & Hrow).
    intros Hnil. assert ((REGNO row, DEPNAME row) ∈ filter (λ p : Z * string, p.1 = REGNO row) pairs) as Hin.
    { apply list_elem_of_filter. split; [done|]. apply elem_of_unique.
      apply list_elem_of_fmap. by exists row. }
    rewrite Hnil in Hin. by apply elem_of_nil in Hin. }
  assert (Forall (λ p : Z * string, p.1 = k)
                 (filter (λ p : Z * string, p.1 = k) pairs)) as Hall.
  { apply Forall_forall. by intros p [Hp _]%list_elem_of_filter. }
  destruct (filter (λ p : Z * string, p.1 = k) pairs) as [|p ms]; [done|].
  rewrite <- list_fmap_compose. apply Forall_fmap_ext_1.
  eapply Forall_impl; [exact Hall|]. intros q <-. done.
Qed.

Lemma elem_of_short_names (table : list Row) (m : StudentStatus.row * option string) :
  m ∈ short_names table
  ↔ ∃ row, row ∈ table ∧ m = short_name_of table (REGNO row, DEPNAME row).
Proof.
  rewrite short_names_Permutation, list_elem_of_fmap. split.
  - intros (p & -> & (row & -> & Hrow)%elem_of_unique%list_elem_of_fmap). eauto.
  - intros (row & Hrow & ->). eexists. split; [done|].
    apply elem_of_unique, list_elem_of_fmap. by exists row.
Qed.

Lemma by_short_name_of (table : list Row) (p : Z * string) (code status : string) :
  by_DEPNAME_SHORT_Status (short_name_of table p) = Some (code, status)
  ↔ DEPT_ABBREVIATIONS !! p.2 = Some code ∧ status_of table p.1 = status.
Proof.
  unfold by_DEPNAME_SHORT_Status, short_name_of. cbn [fst snd].
  rewrite status_row_Status.
  destruct (DEPT_ABBREVIATIONS !! p.2) as [c|]; simpl.
  - split; [by intros [= -> ->]|by intros [[= ->] ->]].
  - split; [done|by intros [? _]].
Qed.

Lemma group_size_students (table : list Row) (code status : string) :
  length (group by_DEPNAME_SHORT_Status (short_names table) (code, status))
  = students table code status.
Proof.
  unfold group, students.
  rewrite (length_filter_Permutation _ _ _ (short_names_Permutation table)).
  rewrite filter_fmap, length_fmap. f_equal.
  apply list_filter_iff. intros p. apply by_short_name_of.
Qed.

Lemma department_wise_run (df : DataFrame) :
  department_wise_pass_fail df
  = (mkDF (rows df) (Some (grade_not_U <$> rows df)),
     inr (department_table (rows df))).
Proof.
  unfold department_wise_pass_fail. run_agg. rewrite zip_fmap_self.
  do 2 f_equal. fold (with_Pass (rows df)). fold (short_names (rows df)).
  fold by_DEPNAME_SHORT_Status.
  rewrite (reindex_unstack_sizes String.le String.le by_DEPNAME_SHORT_Status).
  cbv zeta. unfold department_table.
  rewrite (sorted_keys_ext String.le _
             (omap (λ r, DEPT_ABBREVIATIONS !! DEPNAME r) (rows df))).
  - f_equal. apply list_fmap_ext. intros _ code _. cbv beta.
    by rewrite <- !group_size_students.
  - intros code. rewrite elem_of_unstack_rows, list_elem_of_omap. split.
    + intros (m & status & (row & Hrow & ->)%elem_of_short_names & Hkey).
      apply by_short_name_of in Hkey as [Hcode _]. eauto.
    + intros (row & Hrow & Hcode).
      exists (short_name_of (rows df) (REGNO row, DEPNAME row)), (status_of (rows df) (REGNO row)).
      split; [apply elem_of_short_names; eauto|]. by apply by_short_name_of.
Qed.

(** C5. For every frame the table of [department_wise_pass_fail] has the
    two columns "Pass" and "Fail"; its rows are the department codes of the
    frame, each once, and every row has a cell in both columns: the number
    of students of the code with that status, which is 0 when no student of
    the code has the status. *)
Theorem department_wise_both_columns (df : DataFrame) :
  ∃ t, (department_wise_pass_fail df).2 = inr t ∧
    columns t = ["Pass"; "Fail"] ∧
    NoDup (index t) ∧
    (∀ code, code ∈ index t
       ↔ ∃ row, row ∈ rows df ∧ DEPT_ABBREVIATIONS !! DEPNAME row = Some code) ∧
    (∀ i code, index t !! i = Some code →
       cells t !! i
       = Some [students (rows df) code "Pass"; students (rows df) code "Fail"]) ∧
    (∀ code status,
       (∀ row, row ∈ rows df → DEPT_ABBREVIATIONS !! DEPNAME row = Some code →
          status_of (rows df) (REGNO row) ≠ status) →
       students (rows df) code status = 0).
Proof.
  rewrite department_wise_run. eexists. split; [reflexivity|].
  unfold department_table. cbn [index columns cells].
  split; [done|]. split; [|split; [|split]].
  - rewrite merge_sort_Permutation. apply NoDup_unique.
  - intros code. by rewrite merge_sort_Permutation, elem_of_unique, list_elem_of_omap.
  - intros i code Hi. by rewrite list_lookup_fmap, Hi.
  - intros code status Hnone. unfold students. rewrite filter_none; [done|].
    intros [r d] (row & [= -> ->] & Hrow)%elem_of_unique%list_elem_of_fmap [Hcode Hst].
    by eapply Hnone.
Qed.

(** The status of a student does not depend on the rows of another one. *)
Lemma status_of_without (table : list Row) (r k : Z) :
  k ≠ r → status_of (filter (λ row, REGNO row ≠ r) table) k = status_of table k.
Proof.
  intros Hk. unfold status_of, passed. do 2 f_equal.
  rewrite list_filter_filter. apply list_filter_iff.
  intros row. split; [tauto|]. intros Hrow. split; [done|]. by rewrite Hrow.
Qed.

Lemma department_table_without (table : list Row) (r : Z) :
  (∀ row, row ∈ table → REGNO row = r → DEPT_ABBREVIATIONS !! DEPNAME row = None) →
  department_table (filter (λ row, REGNO row ≠ r) table) = department_table table.
Proof.
  intros Hr. unfold department_table.
  rewrite omap_filter_None; cycle 1.
  { intros row Hrow Hreg. apply Hr; [done|].
    destruct (decide (REGNO row = r)); [done|by destruct Hreg]. }
  f_equal. apply list_fmap_ext. intros _ code _.
  assert (∀ status, students (filter (λ row, REGNO row ≠ r) table) code status
                    = students table code status) as Hst; [|by rewrite !Hst].
  intros status. unfold students.
  assert (REGNO_DEPNAME <$> filter (λ row, REGNO row ≠ r) table
          = filter (λ p, p.1 ≠ r) (REGNO_DEPNAME <$> table)) as ->.
  { symmetry. by apply filter_fmap_iff. }
  rewrite unique_filter, list_filter_filter. f_equal. apply filter_ext_elem.
  intros [k d] (row & [= -> ->] & Hrow)%elem_of_unique%list_elem_of_fmap.
  cbn [fst snd]. split.
  - intros [[Hcode Hst] Hne]. split; [done|]. by rewrite <- (status_of_without _ r).
  - intros [Hcode Hst]. assert (REGNO row ≠ r) as Hne.
    { intros Heq. rewrite (Hr row Hrow Heq) in Hcode. done. }
    split; [|done]. split; [done|]. by rewrite status_of_without.
Qed.

(** C10. A student all of whose rows have a department name without an
    entry in [DEPT_ABBREVIATIONS] is left out of the table of
    [department_wise_pass_fail]: the call raises nothing and returns the
    table it returns on the frame without the rows of the student. *)
Theorem unlisted_department_excluded (df : DataFrame) (r : Z) :
  (∀ row, row ∈ rows df → REGNO row = r → DEPT_ABBREVIATIONS !! DEPNAME row = None) →
  ∃ t, (department_wise_pass_fail df).2 = inr t ∧
    ∀ p, (department_wise_pass_fail
            (mkDF (filter (λ row, REGNO row ≠ r) (rows df)) p)).2 = inr t.
Proof.
  intros Hr. rewrite department_wise_run. eexists. split; [reflexivity|].
  intros p. rewrite department_wise_run. cbn [rows snd].
  by rewrite department_table_without.
Qed.

Lemma unlisted_department_excluded_witness :
  ∃ t, (department_wise_pass_fail (mkDF [passed_row; mechanical_row] None)).2 = inr t ∧
    ∀ p, (department_wise_pass_fail
            (mkDF (filter (λ row, REGNO row ≠ 2021507001%Z) [passed_row; mechanical_row]) p)).2
         = inr t.
Proof.
  apply (unlisted_department_excluded (mkDF [passed_row; mechanical_row] None) 2021507001).
  intros row Hrow Hreg. cbn [rows] in Hrow.
  apply elem_of_cons in Hrow as [->|Hrow]; [discriminate Hreg|].
  apply list_elem_of_singleton in Hrow as ->. reflexivity.
Defined.

(** *** Subject averages *)

Section averages.
Variable str_to_num : string → option Q.

Lemma avg_marks_run (df : DataFrame) :
  avg_marks_per_subject str_to_num df
  = (mkDF (coerce_marks str_to_num <$> rows df) (Pass df),
     sequence ((λ e, mean_marks e.1 e.2)
                 <$> groupby String.le by_SUBCODE id (coerce_marks str_to_num <$> rows df))).
Proof. unfold avg_marks_per_subject. by run_agg. Qed.

(** After the coercion a column holds numbers and NaN only, and its numbers
    are the parseable cells of the column as it was. *)
Lemma numbers_to_numeric (col : list cell) :
  numbers (to_numeric str_to_num <$> col) = inr (omap (parseable str_to_num) col).
Proof.
  induction col as [|c col IHcol]; [done|].
  rewrite fmap_cons. destruct c as [q|s|]; cbn.
  - by rewrite IHcol.
  - destruct (str_to_num s); cbn; by rewrite IHcol.
  - by rewrite IHcol.
Qed.

Lemma mean_coerced (col : Row → cell) (g : list Row) :
  (∀ r, col (coerce_marks str_to_num r) = to_numeric str_to_num (col r)) →
  mean (col <$> (coerce_marks str_to_num <$> g))
  = inr (Qmean (omap (λ r, parseable str_to_num (col r)) g)).
Proof.
  intros Hcol. unfold mean. rewrite <- list_fmap_compose.
  rewrite (list_fmap_ext _ (to_numeric str_to_num ∘ col) g) by (intros; apply Hcol).
  rewrite list_fmap_compose, numbers_to_numeric. do 2 f_equal.
  induction g as [|r g IHg]; [done|]. cbn. by rewrite IHg.
Qed.

Lemma sequence_inr {A T} (f : A → T) (l : list A) :
  sequence ((λ x, inr (f x)) <$> l) = inr (f <$> l).
Proof. induction l as [|x l IHl]; [done|]. cbn. by rewrite IHl. Qed.

Lemma group_keys_coerced (table : list Row) :
  group_keys String.le by_SUBCODE (coerce_marks str_to_num <$> table)
  = group_keys String.le by_SUBCODE table.
Proof.
  unfold group_keys, by_SUBCODE. rewrite !omap_Some, <- list_fmap_compose. done.
Qed.

Lemma group_coerced (table : list Row) (s : string) :
  group by_SUBCODE (coerce_marks str_to_num <$> table) s
  = coerce_marks str_to_num <$> filter (λ r, SUBCODE r = s) table.
Proof.
  unfold group. apply filter_fmap_iff. intros r. unfold by_SUBCODE. simpl.
  split; [by intros ->|by intros [= ->]].
Qed.

Lemma avg_marks_rows (table : list Row) :
  sequence ((λ e, mean_marks e.1 e.2)
              <$> groupby String.le by_SUBCODE id (coerce_marks str_to_num <$> table))
  = inr (avg_row str_to_num table <$> group_keys String.le by_SUBCODE table).
Proof.
  unfold groupby. rewrite <- list_fmap_compose, group_keys_coerced.
  rewrite <- sequence_inr. f_equal. apply list_fmap_ext. intros _ s _. simpl.
  unfold mean_marks, id. rewrite group_coerced. by rewrite !mean_coerced.
Qed.

(** C7. For every frame, [avg_marks_per_subject] returns a table (it does
    not raise on cells that are not numbers), and for every subject code
    of the frame the table has exactly one entry, whose three means are
    the means of the parseable cells of the three mark columns over the
    rows of the subject: a cell that is not a number is left out of the
    sum and of the count. *)
Theorem avg_marks_skips_non_numeric (df : DataFrame) :
  ∃ t, (avg_marks_per_subject str_to_num df).2 = inr t ∧
    ∀ s, s ∈ SUBCODE <$> rows df →
      filter (λ e, SubjectAvg.SUBJECT_CODE e = s) t
      = [SubjectAvg.mk s (mean_of_parseable str_to_num SESMARK (rows df) s)
                         (mean_of_parseable str_to_num ESEM (rows df) s)
                         (mean_of_parseable str_to_num TOTMARK (rows df) s)].
Proof.
  rewrite avg_marks_run. cbn [snd]. rewrite avg_marks_rows.
  eexists. split; [reflexivity|]. intros s Hs.
  rewrite (filter_label (avg_row str_to_num (rows df)) SubjectAvg.SUBJECT_CODE)
    by (done || apply NoDup_group_keys).
  rewrite decide_True; [done|].
  apply elem_of_group_keys. apply list_elem_of_fmap in Hs as (r & -> & Hr).
  by exists r.
Qed.

End averages.

(** *** What the calls leave in the frame *)

Lemma set_columns_run (wide : Pivot string bool nat) (df : DataFrame) :
  set_columns wide df = (df, (set_columns wide (mkDF [] None)).2).
Proof. unfold set_columns. by case_decide. Qed.

Section effects.
Variable str_to_num : string → option Q.

Lemma to_numeric_idemp (c : cell) :
  to_numeric str_to_num (to_numeric str_to_num c) = to_numeric str_to_num c.
Proof. destruct c as [q|s|]; simpl; [done| |done]. by destruct (str_to_num s). Qed.

Lemma coerce_marks_idemp (r : Row) :
  coerce_marks str_to_num (coerce_marks str_to_num r) = coerce_marks str_to_num r.
Proof. unfold coerce_marks. simpl. by rewrite !to_numeric_idemp. Qed.

(** C8. For each of the six aggregation functions and every frame, a
    second call on the frame as the first call left it has the result of
    the first call: the same table, or the same exception. *)
Theorem aggregation_twice (df : DataFrame) :
  (determine_pass_fail (determine_pass_fail df).1).2 = (determine_pass_fail df).2 ∧
  (grade_distribution_per_subject (grade_distribution_per_subject df).1).2
  = (grade_distribution_per_subject df).2 ∧
  (subjects_failed (subjects_failed df).1).2 = (subjects_failed df).2 ∧
  (avg_marks_per_subject str_to_num (avg_marks_per_subject str_to_num df).1).2
  = (avg_marks_per_subject str_to_num df).2 ∧
  (subject_wise_pass_fail (subject_wise_pass_fail df).1).2
  = (subject_wise_pass_fail df).2 ∧
  (department_wise_pass_fail (department_wise_pass_fail df).1).2
  = (department_wise_pass_fail df).2.
Proof.
  split; [|split; [|split; [|split; [|split]]]].
  - by rewrite !determine_pass_fail_run.
  - by rewrite !grade_distribution_run.
  - by rewrite !subjects_failed_run.
  - rewrite !avg_marks_run. cbn [fst snd rows].
    rewrite <- list_fmap_compose.
    by rewrite (list_fmap_ext (coerce_marks str_to_num ∘ coerce_marks str_to_num)
                 (coerce_marks str_to_num) (rows df))
      by (intros; apply coerce_marks_idemp).
  - rewrite !subject_wise_pass_fail_run.
    by rewrite (set_columns_run _ (mkDF (rows df) _)), set_columns_run.
  - by rewrite !department_wise_run.
Qed.

(** C9 (amended). For every frame: [determine_pass_fail],
    [subject_wise_pass_fail] and [department_wise_pass_fail] assign the
    column "Pass" and leave the rows as they are;
    [grade_distribution_per_subject] and [subjects_failed] leave the frame
    as it is; [avg_marks_per_subject] leaves the column "Pass" and the
    seven columns other than the marks as they are and replaces every cell
    of the three mark columns by its coercion, which keeps a number; and
    the result of every function is the same whatever the column "Pass"
    held, or whether it was there, before the call. *)
Theorem aggregation_frame_effects (df : DataFrame) :
  let pass_assigned := mkDF (rows df) (Some (grade_not_U <$> rows df)) in
  ((determine_pass_fail df).1 = pass_assigned ∧
   (subject_wise_pass_fail df).1 = pass_assigned ∧
   (department_wise_pass_fail df).1 = pass_assigned) ∧
  ((grade_distribution_per_subject df).1 = df ∧ (subjects_failed df).1 = df) ∧
  ((avg_marks_per_subject str_to_num df).1
   = mkDF (coerce_marks str_to_num <$> rows df) (Pass df) ∧
   ∀ r, let r' := coerce_marks str_to_num r in
     (DEPNAME r' = DEPNAME r ∧ BRNAME r' = BRNAME r ∧ SEM r' = SEM r ∧
      REGNO r' = REGNO r ∧ SUBCODE r' = SUBCODE r ∧ SUBTYPE r' = SUBTYPE r ∧
      GRADE r' = GRADE r) ∧
     (SESMARK r' = to_numeric str_to_num (SESMARK r) ∧
      ESEM r' = to_numeric str_to_num (ESEM r) ∧
      TOTMARK r' = to_numeric str_to_num (TOTMARK r)) ∧
     ∀ q, to_numeric str_to_num (CNum q) = CNum q) ∧
  ∀ p, let other := mkDF (rows df) p in
    (determine_pass_fail other).2 = (determine_pass_fail df).2 ∧
    (grade_distribution_per_subject other).2 = (grade_distribution_per_subject df).2 ∧
    (subjects_failed other).2 = (subjects_failed df).2 ∧
    (avg_marks_per_subject str_to_num other).2 = (avg_marks_per_subject str_to_num df).2 ∧
    (subject_wise_pass_fail other).2 = (subject_wise_pass_fail df).2 ∧
    (department_wise_pass_fail other).2 = (department_wise_pass_fail df).2.
Proof.
  cbv zeta. split; [|split; [|split]].
  - rewrite determine_pass_fail_run, subject_wise_pass_fail_run, department_wise_run.
    by rewrite set_columns_run.
  - by rewrite grade_distribution_run, subjects_failed_run.
  - by rewrite avg_marks_run.
  - intros p. rewrite !determine_pass_fail_run, !grade_distribution_run,
      !subjects_failed_run, !avg_marks_run, !subject_wise_pass_fail_run,
      !department_wise_run.
    cbn [rows snd Pass].
    rewrite (set_columns_run _ (mkDF (rows df) _)).
    repeat (split; [reflexivity|]). reflexivity.
Qed.

End effects.

(** C9 as stated fails: the call of [avg_marks_per_subject] replaces the
    text "AB" in the column ESEM of the frame by NaN. *)
Lemma avg_marks_overwrites_marks :
  ESEM <$> rows (mkDF [absent_row] None) = [CStr "AB"] ∧
  ESEM <$> rows (avg_marks_per_subject decimal (mkDF [absent_row] None)).1 = [CNaN].
Proof. split; reflexivity. Qed.

(** *** The render cycle *)

Lemma required_cols_present (cols : list string) :
  forallb (λ col, bool_decide (col ∈ cols)) required_cols = true ↔ required_cols ⊆ cols.
Proof.
  rewrite <- Is_true_true, forallb_True, Forall_forall. split.
  - intros Hall col Hcol. by apply (bool_decide_unpack _), Hall.
  - intros Hsub col Hcol. by apply bool_decide_pack, Hsub.
Qed.

Lemma load_data_present (cols : list string) (table : list Row) :
  required_cols ⊆ cols → load_data (UG cols table) = ([], Some table).
Proof. intros Hc%required_cols_present. unfold load_data. by rewrite Hc. Qed.

Lemma load_data_missing (cols : list string) (table : list Row) :
  ¬ required_cols ⊆ cols →
  load_data (UG cols table) = ([StError "Excel file is missing required columns!"], None).
Proof.
  intros Hc. unfold load_data.
  destruct (forallb _ required_cols) eqn:Hall; [|done].
  by apply required_cols_present in Hall.
Qed.

Section render_facts.
Variable str_to_num : string → option Q.

(** C6. A cycle whose upload cannot be read, or lacks a required column,
    shows the error that says so and stops; a cycle whose selection leaves
    no row shows the warning that names the selected department, branch
    and semester and computes no table.  In the three cases the cycle
    calls no aggregation function. *)
Theorem failed_load_or_empty_selection_halts :
  (∀ e w, main str_to_num (Some (Unreadable e)) w
          = ([StError ("Error loading file: " +:+ e); StStop], Stopped)) ∧
  (∀ cols table w, ¬ required_cols ⊆ cols →
     main str_to_num (Some (UG cols table)) w
     = ([StError "Excel file is missing required columns!"; StStop], Stopped)) ∧
  (∀ cols table w, required_cols ⊆ cols →
     by_semester w (by_department w table) = [] →
     main str_to_num (Some (UG cols table)) w
     = ([StWarning ("No data available for " +:+ selected_department w
                    +:+ " - " +:+ selected_branch w
                    +:+ " in Semester " +:+ semester_text (selected_semester w))],
        Finished None)).
Proof.
  split; [|split].
  - reflexivity.
  - intros cols table w Hc. unfold main. by rewrite load_data_missing.
  - intros cols table w Hc Hempty. unfold main. rewrite load_data_present by done.
    by rewrite Hempty.
Qed.

End render_facts.

(** *** The example of the specification *)

Example sample_StudentStatus :
  (determine_pass_fail (mkDF sample None)).2
  = inr [StudentStatus.mk 1 false "Fail"; StudentStatus.mk 2 true "Pass"].
Proof. reflexivity. Qed.

Example sample_SubjectPassFail :
  (subject_wise_pass_fail (mkDF sample None)).2
  = inr [SubjectPassFail.mk "AE101" 0 2; SubjectPassFail.mk "AE102" 1 0].
Proof. reflexivity. Qed.

Example sample_ArrearDistribution :
  (subjects_failed (mkDF sample None)).2 = inr [Arrears.mk 1 1].
Proof. reflexivity. Qed.

Example sample_DepartmentPassFail :
  (department_wise_pass_fail (mkDF sample None)).2
  = inr (mkPivot ["AERO"] ["Pass"; "Fail"] [[1; 1]]).
Proof. reflexivity. Qed.

(** The text "45" counts as 45, the text "AB" does not count as 0. *)
Example sample_SubjectAverages :
  (avg_marks_per_subject decimal (mkDF sample None)).2
  = inr [SubjectAvg.mk "AE101" (Some 40%Q) (Some 45%Q) None;
         SubjectAvg.mk "AE102" (Some 40%Q) (Some 45%Q) None].
Proof. reflexivity. Qed.

(** Over the marks 40 and "AB" the mean is 40: the text is left out, it is
    not a 0 that would make the mean 20. *)
Example unparseable_is_not_zero :
  (avg_marks_per_subject decimal
     (mkDF [mkRow "AEROSPACE ENGINEERING" "AERONAUTICAL" 5 1 "AE101" "THEORY"
                  (CNum 40) (CNum 40) (CNum 80) "A";
            mkRow "AEROSPACE ENGINEERING" "AERONAUTICAL" 5 2 "AE101" "THEORY"
                  (CNum 30) (CStr "AB") (CStr "AB") "U"] None)).2
  = inr [SubjectAvg.mk "AE101" (Some 35%Q) (Some 40%Q) (Some 80%Q)].
Proof. reflexivity. Qed.

(** A cycle on a selection with rows calls the six functions in turn. *)
Example sample_cycle :
  (main decimal (Some (UG required_cols sample)) (mkWidgets "Overall" "All" Sem_Overall)).1
  = [Invoke "determine_pass_fail"; Invoke "subjects_failed";
     Invoke "department_wise_pass_fail"; Invoke "subject_wise_pass_fail";
     Invoke "avg_marks_per_subject"; Invoke "grade_distribution_per_subject"].
Proof. reflexivity. Qed.

(** A cycle on a semester without rows. *)
Example sample_empty_semester :
  main decimal (Some (UG required_cols sample))
       (mkWidgets "AEROSPACE ENGINEERING" "AERONAUTICAL" Sem_7)
  = ([StWarning "No data available for AEROSPACE ENGINEERING - AERONAUTICAL in Semester 7"],
     Finished None).
Proof. reflexivity. Qed.

(** *** Subject-wise counts when both outcomes occur, and when one is missing *)

#[global] Instance bool_le_total : Total bool_le.
Proof. intros [] []; unfold bool_le; simpl; tauto. Qed.

Lemma group_SUBCODE_Pass (table : list Row) (s : string) (b : bool) :
  length (group by_SUBCODE_Pass (with_Pass table) (s, b)) = length (rows_of table s b).
Proof.
  unfold group, with_Pass, rows_of. rewrite filter_fmap, length_fmap. f_equal.
  apply list_filter_iff. intros r. unfold by_SUBCODE_Pass. simpl.
  split; [by intros [= -> ->]|by intros [-> ->]].
Qed.

(** The values of the column "Pass" that occur are the columns of the wide frame. *)
Lemma elem_of_Pass_columns (table : list Row) (b : bool) :
  b ∈ (groupby_size (lex_le String.le bool_le) by_SUBCODE_Pass (with_Pass table)).*1.*2
  ↔ ∃ r, r ∈ table ∧ grade_not_U r = b.
Proof.
  unfold groupby_size. rewrite groupby_labels, list_elem_of_fmap. split.
  - intros ([s b'] & -> & (rp & Hrp & Hkey)%elem_of_group_keys).
    apply list_elem_of_fmap in Hrp as (r & -> & Hr).
    injection Hkey as _ Hb. eauto.
  - intros (r & Hr & Hb). exists (SUBCODE r, b). split; [done|].
    apply elem_of_group_keys. exists (r, grade_not_U r). split.
    + apply list_elem_of_fmap. eauto.
    + unfold by_SUBCODE_Pass. simpl. by rewrite Hb.
Qed.

Lemma elem_of_SUBCODE_rows (table : list Row) (s : string) :
  s ∈ (groupby_size (lex_le String.le bool_le) by_SUBCODE_Pass (with_Pass table)).*1.*1
  ↔ s ∈ SUBCODE <$> table.
Proof.
  rewrite elem_of_unstack_rows, list_elem_of_fmap. split.
  - intros (rp & b & (r & -> & Hr)%list_elem_of_fmap & Hkey).
    injection Hkey as <- _. eauto.
  - intros (r & -> & Hr). exists (r, grade_not_U r), (grade_not_U r).
    split; [|done]. apply list_elem_of_fmap. eauto.
Qed.

Lemma length_rows_of (table : list Row) (s : string) :
  length (rows_of table s true) + length (rows_of table s false)
  = length (filter (λ r, SUBCODE r = s) table).
Proof.
  unfold rows_of. induction table as [|r t IHt]; [done|].
  rewrite !filter_cons. destruct (decide (SUBCODE r = s)) as [Hs|Hs].
  - destruct (grade_not_U r) eqn:Hb.
    + rewrite decide_True by done. rewrite decide_False by (by intros [_ ?]).
      simpl. lia.
    + rewrite decide_False by (by intros [_ ?]). rewrite decide_True by done.
      simpl. lia.
  - rewrite !decide_False by (by intros [? _]). done.
Qed.

Lemma grade_not_U_false (r : Row) : grade_not_U r = false ↔ GRADE r = "U".
Proof.
  unfold grade_not_U. rewrite bool_decide_eq_false. split; [|by intros -> Hne].
  intros Hnn. by destruct (decide (GRADE r = "U")).
Qed.

Lemma Pass_columns_both (table : list Row) :
  (∃ r, r ∈ table ∧ GRADE r = "U") → (∃ r, r ∈ table ∧ GRADE r ≠ "U") →
  merge_sort bool_le
    (unique (groupby_size (lex_le String.le bool_le) by_SUBCODE_Pass (with_Pass table)).*1.*2)
  = [false; true].
Proof.
  intros (r1 & Hr1 & Hu) (r2 & Hr2 & Hp).
  rewrite (sorted_keys_ext bool_le _ [false; true]); [reflexivity|].
  intros b. rewrite elem_of_Pass_columns. split.
  - intros _. destruct b; [right; left|left].
  - intros _. destruct b.
    + exists r2. split; [done|]. by apply grade_not_U_true.
    + exists r1. split; [done|]. by apply grade_not_U_false.
Qed.

Lemma subject_wise_table (df : DataFrame) :
  (∃ r, r ∈ rows df ∧ GRADE r = "U") → (∃ r, r ∈ rows df ∧ GRADE r ≠ "U") →
  (subject_wise_pass_fail df).2
  = inr (subject_row (rows df) <$> merge_sort String.le (unique (SUBCODE <$> rows df))).
Proof.
  intros Hu Hp. rewrite subject_wise_pass_fail_run.
  unfold set_columns, unstack. cbn [index columns cells].
  rewrite Pass_columns_both by done. cbn [length]. rewrite decide_True by done.
  rewrite agg_ret. cbn [snd]. f_equal.
  rewrite zip_fmap_self, <- list_fmap_compose.
  rewrite (sorted_keys_ext String.le _ (SUBCODE <$> rows df))
    by apply elem_of_SUBCODE_rows.
  apply list_fmap_ext. intros _ s _. unfold compose, subject_row. cbn.
  f_equal.
  - etrans; [apply (loc_groupby_size _ by_SUBCODE_Pass)|]. apply group_SUBCODE_Pass.
  - etrans; [apply (loc_groupby_size _ by_SUBCODE_Pass)|]. apply group_SUBCODE_Pass.
Qed.

(** When the frame has a row with the grade "U" and a row with another
    grade, every subject code of the frame has exactly one entry in the
    table of [subject_wise_pass_fail]; its counts are the numbers of rows
    of the subject with a grade other than "U" and with the grade "U", and
    they add up to the number of rows of the subject. *)
Theorem subject_wise_pass_fail_counts (df : DataFrame) :
  (∃ r, r ∈ rows df ∧ GRADE r = "U") → (∃ r, r ∈ rows df ∧ GRADE r ≠ "U") →
  ∃ t, (subject_wise_pass_fail df).2 = inr t ∧
    ∀ s, s ∈ SUBCODE <$> rows df →
      ∃ e, filter (λ e, SubjectPassFail.SUBJECT_CODE e = s) t = [e] ∧
        SubjectPassFail.Pass e
        = length (filter (λ r, SUBCODE r = s ∧ GRADE r ≠ "U") (rows df)) ∧
        SubjectPassFail.Fail e
        = length (filter (λ r, SUBCODE r = s ∧ GRADE r = "U") (rows df)) ∧
        SubjectPassFail.Pass e + SubjectPassFail.Fail e
        = length (filter (λ r, SUBCODE r = s) (rows df)).
Proof.
  intros Hu Hp. rewrite subject_wise_table by done.
  eexists. split; [reflexivity|]. intros s Hs.
  rewrite (filter_label (subject_row (rows df)) SubjectPassFail.SUBJECT_CODE);
    [|done|rewrite merge_sort_Permutation; apply NoDup_unique].
  rewrite decide_True by (by rewrite merge_sort_Permutation, elem_of_unique).
  eexists. split; [reflexivity|]. unfold subject_row. simpl. split; [|split].
  - unfold rows_of. f_equal. apply list_filter_iff. intros r.
    by rewrite grade_not_U_true.
  - unfold rows_of. f_equal. apply list_filter_iff. intros r.
    by rewrite grade_not_U_false.
  - apply length_rows_of.
Qed.

Lemma subject_wise_pass_fail_counts_witness :
  ∃ t, (subject_wise_pass_fail (mkDF sample None)).2 = inr t ∧
    ∀ s, s ∈ SUBCODE <$> sample →
      ∃ e, filter (λ e, SubjectPassFail.SUBJECT_CODE e = s) t = [e] ∧
        SubjectPassFail.Pass e
        = length (filter (λ r, SUBCODE r = s ∧ GRADE r ≠ "U") sample) ∧
        SubjectPassFail.Fail e
        = length (filter (λ r, SUBCODE r = s ∧ GRADE r = "U") sample) ∧
        SubjectPassFail.Pass e + SubjectPassFail.Fail e
        = length (filter (λ r, SUBCODE r = s) sample).
Proof.
  apply (subject_wise_pass_fail_counts (mkDF sample None)).
  - exists (sample_row 1 "AE102" "U"). split; [|reflexivity]. right; left.
  - exists (sample_row 1 "AE101" "O"). split; [left|discriminate].
Defined.

Lemma length_NoDup_constant {A} (b : A) (l : list A) :
  NoDup l → (∀ x, x ∈ l → x = b) → length l ≤ 1.
Proof.
  intros Hl Hb. destruct Hl as [|x l Hx Hl]; [simpl; lia|].
  destruct l as [|y l]; [simpl; lia|]. destruct Hx.
  rewrite (Hb x) by left. rewrite (Hb y) by (right; left). left.
Qed.

(** C3. The code does not do what the claim says when one outcome is
    missing from the whole frame: when all rows of the frame have the grade
    "U", or none has, the call of [subject_wise_pass_fail] raises, because
    the wide frame has fewer than the three columns that are given labels;
    no subject appears with a zero. *)
Theorem subject_wise_pass_fail_one_outcome (df : DataFrame) :
  (∀ r, r ∈ rows df → GRADE r = "U") ∨ (∀ r, r ∈ rows df → GRADE r ≠ "U") →
  ∃ n, n < 3 ∧ (subject_wise_pass_fail df).2 = inl (LengthMismatch n 3).
Proof.
  intros Hone. rewrite subject_wise_pass_fail_run.
  unfold set_columns, unstack. cbn [index columns cells].
  set (cols := merge_sort bool_le _).
  assert (length cols ≤ 1) as Hlen.
  { assert (∃ b, ∀ r, r ∈ rows df → grade_not_U r = b) as [b Hb].
    { destruct Hone as [Hu|Hp]; [exists false|exists true]; intros r Hr.
      - by apply grade_not_U_false, Hu.
      - by apply grade_not_U_true, Hp. }
    apply (length_NoDup_constant b).
    - unfold cols. rewrite merge_sort_Permutation. apply NoDup_unique.
    - intros x. unfold cols. rewrite merge_sort_Permutation, elem_of_unique.
      intros (r & Hr & <-)%elem_of_Pass_columns. by apply Hb. }
  exists (S (length cols)). split; [lia|].
  rewrite decide_False by lia. reflexivity.
Qed.

Lemma subject_wise_pass_fail_one_outcome_witness :
  ∃ n, n < 3 ∧ (subject_wise_pass_fail (mkDF [passed_row] None)).2
               = inl (LengthMismatch n 3).
Proof.
  apply (subject_wise_pass_fail_one_outcome (mkDF [passed_row] None)).
  right. intros r Hr. apply list_elem_of_singleton in Hr as ->. discriminate.
Defined.

(** ** Part IX. The selection, the cycle and the charts *)

(** *** The rows a selection keeps *)

Lemma elem_of_others (df : list Row) (r : Row) :
  r ∈ others df ↔ r ∈ df ∧ open_elective r.
Proof.
  unfold others, open_elective. cbv zeta.
  rewrite elem_of_unique, elem_of_app, !list_elem_of_filter.
  rewrite merge_sort_Permutation, elem_of_unique, elem_of_app.
  rewrite merge_sort_Permutation, elem_of_unique, list_elem_of_fmap.
  split.
  - intros [[Hp Hr]|[[(r' & Hs & [Hp' _]%list_elem_of_filter)|He] Hr]].
    + auto.
    + split; [done|]. left. by rewrite Hs.
    + auto.
  - intros [Hr [Hp|He]]; [left|right]; auto.
Qed.

(** The rows shown for "Others (Open Elective)" are the rows of the sheet
    that are open electives, each once: a row whose subject code starts
    with a department prefix is among them exactly when its code is in a
    list of [extra_subjects], and repeated rows of the sheet are merged. *)
Theorem others_rows (df : list Row) :
  NoDup (others df) ∧
  ∀ r, r ∈ others df
       ↔ r ∈ df ∧ (startswith (DEPT_PREFIX.*2) (SUBCODE r) = false
                   ∨ SUBCODE r ∈ mjoin (extra_subjects.*2)).
Proof.
  split; [apply NoDup_unique|]. intros r. apply elem_of_others.
Qed.

Lemma selected_branch_specific (w : widgets) :
  selected_department w ≠ "Others (Open Elective)" →
  selected_department w ≠ "Overall" →
  selected_branch w = branch_box w.
Proof.
  intros Ho Hall. unfold selected_branch. rewrite bool_decide_eq_false_2; [done|].
  intros [?|[?|[]%elem_of_nil]%elem_of_cons]%elem_of_cons; done.
Qed.

Lemma elem_of_by_department (w : widgets) (df : list Row) (r : Row) :
  r ∈ by_department w df ↔ r ∈ df ∧ department_selected w r.
Proof.
  unfold by_department, department_selected.
  destruct (decide (selected_department w = "Others (Open Elective)")) as [Ho|Ho].
  - rewrite bool_decide_eq_true_2 by done. apply elem_of_others.
  - rewrite bool_decide_eq_false_2 by done.
    destruct (decide (selected_department w = "Overall")) as [Hall|Hall].
    + rewrite bool_decide_eq_false_2 by (by intros Hne). tauto.
    + rewrite bool_decide_eq_true_2 by done.
      rewrite selected_branch_specific by done.
      destruct (decide (branch_box w = "All")) as [Hb|Hb].
      * rewrite bool_decide_eq_false_2 by (by intros Hne).
        rewrite list_elem_of_filter. tauto.
      * rewrite bool_decide_eq_true_2 by done.
        rewrite !list_elem_of_filter. tauto.
Qed.

(** For every selection, the rows the aggregation functions receive are
    the rows of the sheet that the department box, the branch box and the
    semester box ask for: all of them and no other.  The branch counts
    only for a specific department, and "All" keeps every branch. *)
Theorem selection_rows (w : widgets) (df : list Row) (r : Row) :
  r ∈ by_semester w (by_department w df)
  ↔ r ∈ df ∧ department_selected w r ∧ semester_selected w r.
Proof.
  unfold by_semester, semester_selected.
  destruct (semester_int (selected_semester w)) as [n|].
  - rewrite list_elem_of_filter, elem_of_by_department. tauto.
  - rewrite elem_of_by_department. tauto.
Qed.

(** *** The calls of a cycle *)

Lemma script_invoke_ok {T U} (name : string) (f : Agg T) (k : T → Script U)
    (s : script_state) (df : DataFrame) (x : T) :
  f (filtered_df s) = (df, inr x) →
  (invoke name f ≫= k) s = k x (mkScript (done s ++ [Invoke name]) df).
Proof. intros Hf. unfold mbind, Script_bind, invoke. by rewrite Hf. Qed.

Lemma script_invoke_raise {T U} (name : string) (f : Agg T) (k : T → Script U)
    (s : script_state) (df : DataFrame) (e : exn) :
  f (filtered_df s) = (df, inl e) →
  (invoke name f ≫= k) s = (mkScript (done s ++ [Invoke name]) df, inl e).
Proof. intros Hf. unfold mbind, Script_bind, invoke. by rewrite Hf. Qed.

(** The grade distribution does not read the marks. *)
Lemma grade_table_coerced (str_to_num : string → option Q) (table : list Row) :
  (unique (SUBCODE <$> (coerce_marks str_to_num <$> table))
     ≫= λ s, grade_row (coerce_marks str_to_num <$> table) s <$> grade_order)
  = (unique (SUBCODE <$> table) ≫= λ s, grade_row table s <$> grade_order).
Proof.
  rewrite <- list_fmap_compose.
  change (SUBCODE ∘ coerce_marks str_to_num) with SUBCODE.
  apply bind_ext_elem. intros s _. apply list_fmap_ext. intros _ g _.
  unfold grade_row, rows_with. f_equal.
  rewrite (filter_fmap_iff (coerce_marks str_to_num) _
             (λ r, SUBCODE r = s ∧ GRADE r = g)) by done.
  by rewrite length_fmap.
Qed.

(** With a single outcome in a frame that has a row, the wide frame has
    exactly one column of counts. *)
Lemma Pass_columns_single (table : list Row) (b : bool) :
  table ≠ [] → (∀ r, r ∈ table → grade_not_U r = b) →
  merge_sort bool_le
    (unique (groupby_size (lex_le String.le bool_le) by_SUBCODE_Pass (with_Pass table)).*1.*2)
  = [b].
Proof.
  intros Hne Hb. rewrite (sorted_keys_ext bool_le _ [b]); [by destruct b|].
  intros x. rewrite elem_of_Pass_columns, list_elem_of_singleton. split.
  - intros (r & Hr & <-). by apply Hb.
  - intros ->. destruct table as [|r t]; [done|]. exists r. split; [left|].
    apply Hb. left.
Qed.

Lemma subject_wise_raises (df : DataFrame) (b : bool) :
  rows df ≠ [] → (∀ r, r ∈ rows df → grade_not_U r = b) →
  subject_wise_pass_fail df
  = (mkDF (rows df) (Some (grade_not_U <$> rows df)), inl (LengthMismatch 2 3)).
Proof.
  intros Hne Hb. rewrite subject_wise_pass_fail_run.
  unfold set_columns, unstack. cbn [index columns cells].
  by rewrite (Pass_columns_single _ b).
Qed.

Section cycle.
Variable str_to_num : string → option Q.

(** When the selection has a row with the grade "U" and a row with another
    grade, the cycle calls the six aggregation functions in the order of
    the script and ends with six tables, and each table is the one its
    function returns on the selected rows alone: the column and the
    coerced marks that earlier calls leave in the shared frame change no
    later table. *)
Theorem cycle_tables (cols : list string) (table : list Row) (w : widgets) :
  let filtered := by_semester w (by_department w table) in
  required_cols ⊆ cols →
  (∃ r, r ∈ filtered ∧ GRADE r = "U") → (∃ r, r ∈ filtered ∧ GRADE r ≠ "U") →
  ∃ a b c d e f,
    (determine_pass_fail (mkDF filtered None)).2 = inr a ∧
    (subjects_failed (mkDF filtered None)).2 = inr b ∧
    (department_wise_pass_fail (mkDF filtered None)).2 = inr c ∧
    (subject_wise_pass_fail (mkDF filtered None)).2 = inr d ∧
    (avg_marks_per_subject str_to_num (mkDF filtered None)).2 = inr e ∧
    (grade_distribution_per_subject (mkDF filtered None)).2 = inr f ∧
    main str_to_num (Some (UG cols table)) w
    = ([Invoke "determine_pass_fail"; Invoke "subjects_failed";
        Invoke "department_wise_pass_fail"; Invoke "subject_wise_pass_fail";
        Invoke "avg_marks_per_subject"; Invoke "grade_distribution_per_subject"],
       Finished (Some (mkDerived a b c d e f))).
Proof.
  intros filtered Hcols Hu Hp.
  assert (filtered ≠ []) as Hne.
  { destruct Hu as (r & Hr & _). intros Hnil. rewrite Hnil in Hr.
    by apply elem_of_nil in Hr. }
  do 6 eexists.
  rewrite determine_pass_fail_run, subjects_failed_run, department_wise_run,
    avg_marks_run, grade_distribution_run.
  rewrite (subject_wise_table (mkDF filtered None)) by done.
  cbn [snd rows]. rewrite avg_marks_rows.
  repeat (split; [reflexivity|]).
  unfold main. rewrite load_data_present by done. fold filtered.
  rewrite decide_False by done. unfold aggregate.
  erewrite script_invoke_ok by (cbn [filtered_df]; apply determine_pass_fail_run).
  erewrite script_invoke_ok by (cbn [filtered_df]; apply subjects_failed_run).
  erewrite script_invoke_ok by (cbn [filtered_df]; apply department_wise_run).
  erewrite script_invoke_ok; cycle 1.
  { cbn [filtered_df rows].
    rewrite subject_wise_pass_fail_run, set_columns_run. cbn [rows].
    f_equal.
    pose proof (subject_wise_table (mkDF filtered None) Hu Hp) as Ht.
    rewrite subject_wise_pass_fail_run, set_columns_run in Ht. exact Ht. }
  erewrite script_invoke_ok; cycle 1.
  { cbn [filtered_df rows]. rewrite avg_marks_run. cbn [rows Pass].
    f_equal. apply avg_marks_rows. }
  erewrite script_invoke_ok; cycle 1.
  { cbn [filtered_df rows]. rewrite grade_distribution_run. cbn [rows].
    reflexivity. }
  rewrite grade_table_coerced. reflexivity.
Qed.

(** When the selection has rows and all of them have the grade "U", or
    none has, the cycle ends with the exception that
    [subject_wise_pass_fail] raises, after the first four calls and
    without a table, whatever the selected department. *)
Theorem cycle_raises (cols : list string) (table : list Row) (w : widgets) :
  let filtered := by_semester w (by_department w table) in
  required_cols ⊆ cols → filtered ≠ [] →
  (∀ r, r ∈ filtered → GRADE r = "U") ∨ (∀ r, r ∈ filtered → GRADE r ≠ "U") →
  main str_to_num (Some (UG cols table)) w
  = ([Invoke "determine_pass_fail"; Invoke "subjects_failed";
      Invoke "department_wise_pass_fail"; Invoke "subject_wise_pass_fail"],
     Uncaught (LengthMismatch 2 3)).
Proof.
  intros filtered Hcols Hne Hone.
  assert (∃ b, ∀ r, r ∈ filtered → grade_not_U r = b) as [b Hb].
  { destruct Hone as [Hu|Hp]; [exists false|exists true]; intros r Hr.
    - by apply grade_not_U_false, Hu.
    - by apply grade_not_U_true, Hp. }
  unfold main. rewrite load_data_present by done. fold filtered.
  rewrite decide_False by done. unfold aggregate.
  erewrite script_invoke_ok by (cbn [filtered_df]; apply determine_pass_fail_run).
  erewrite script_invoke_ok by (cbn [filtered_df]; apply subjects_failed_run).
  erewrite script_invoke_ok by (cbn [filtered_df]; apply department_wise_run).
  erewrite script_invoke_raise; [reflexivity|].
  cbn [filtered_df rows]. by apply (subject_wise_raises _ b).
Qed.

End cycle.

Lemma cycle_tables_witness :
  ∃ a b c d e f,
    (determine_pass_fail (mkDF sample None)).2 = inr a ∧
    (subjects_failed (mkDF sample None)).2 = inr b ∧
    (department_wise_pass_fail (mkDF sample None)).2 = inr c ∧
    (subject_wise_pass_fail (mkDF sample None)).2 = inr d ∧
    (avg_marks_per_subject decimal (mkDF sample None)).2 = inr e ∧
    (grade_distribution_per_subject (mkDF sample None)).2 = inr f ∧
    main decimal (Some (UG required_cols sample)) (mkWidgets "Overall" "All" Sem_Overall)
    = ([Invoke "determine_pass_fail"; Invoke "subjects_failed";
        Invoke "department_wise_pass_fail"; Invoke "subject_wise_pass_fail";
        Invoke "avg_marks_per_subject"; Invoke "grade_distribution_per_subject"],
       Finished (Some (mkDerived a b c d e f))).
Proof.
  apply (cycle_tables decimal required_cols sample (mkWidgets "Overall" "All" Sem_Overall)).
  - done.
  - exists (sample_row 1 "AE102" "U"). split; [|reflexivity]. right; left.
  - exists (sample_row 1 "AE101" "O"). split; [left|discriminate].
Defined.

Lemma cycle_raises_witness :
  main decimal (Some (UG required_cols [passed_row])) (mkWidgets "Overall" "All" Sem_Overall)
  = ([Invoke "determine_pass_fail"; Invoke "subjects_failed";
      Invoke "department_wise_pass_fail"; Invoke "subject_wise_pass_fail"],
     Uncaught (LengthMismatch 2 3)).
Proof.
  apply (cycle_raises decimal required_cols [passed_row]
           (mkWidgets "Overall" "All" Sem_Overall)).
  - done.
  - discriminate.
  - right. intros r Hr. apply list_elem_of_singleton in Hr as ->. discriminate.
Defined.

(** *** The parts of a list of subjects *)

Lemma num_charts_bounds (n : nat) :
  n ≤ num_charts n * 5 ∧ num_charts n * 5 < n + 5.
Proof.
  unfold num_charts, subjects_per_chart.
  pose proof (Nat.div_mod_eq (n + 5 - 1) 5) as Hdiv.
  pose proof (Nat.mod_upper_bound (n + 5 - 1) 5 ltac:(done)) as Hmod.
  revert Hdiv Hmod. generalize ((n + 5 - 1) / 5) ((n + 5 - 1) mod 5). lia.
Qed.

Lemma div_lt_num_charts (j n : nat) : j < n → j / 5 < num_charts n.
Proof.
  intros Hj. pose proof (num_charts_bounds n) as [Hn _].
  pose proof (Nat.div_mod_eq j 5) as Hdiv.
  pose proof (Nat.mod_upper_bound j 5 ltac:(done)) as Hmod.
  revert Hdiv Hmod. generalize (j / 5) (j mod 5). lia.
Qed.

Section parts.
Context {A : Type}.

Lemma subset_subjects_take (l : list A) (i : nat) :
  subset_subjects l i = take 5 (drop (i * 5) l).
Proof.
  unfold subset_subjects, slice, subjects_per_chart. cbv zeta.
  trans (take (5 `min` length (drop (i * 5) l)) (drop (i * 5) l)).
  - f_equal. rewrite length_drop. lia.
  - rewrite <- take_take. f_equal. by apply take_ge.
Qed.

Lemma parts_join (l : list A) (n : nat) :
  mjoin (subset_subjects l <$> seq 0 n) = take (n * 5) l.
Proof.
  induction n as [|n IHn]; [done|].
  rewrite seq_S, fmap_app, join_app, IHn. cbn [fmap list_fmap mjoin list_join].
  rewrite app_nil_r, subset_subjects_take, take_take_drop. f_equal. lia.
Qed.

Lemma length_subset_subjects (l : list A) (i : nat) :
  length (subset_subjects l i) = 5 `min` (length l - i * 5).
Proof. by rewrite subset_subjects_take, length_take, length_drop. Qed.

Lemma lookup_subset_subjects (l : list A) (j : nat) (x : A) :
  l !! j = Some x → x ∈ subset_subjects l (j / 5).
Proof.
  intros Hj. rewrite subset_subjects_take.
  apply (list_elem_of_lookup_2 _ (j mod 5)).
  pose proof (Nat.div_mod_eq j 5) as Hdiv.
  pose proof (Nat.mod_upper_bound j 5 ltac:(done)) as Hmod.
  rewrite lookup_take_lt by lia. rewrite lookup_drop.
  replace (j / 5 * 5 + j mod 5) with j by lia. done.
Qed.

End parts.

(** The three functions that draw one chart for every five subjects cut
    the list of subjects into consecutive parts: the parts joined give the
    list back, there are ceil(n / 5) of them, none is empty, none has more
    than five subjects, and all but the last have five. *)
Lemma chart_parts {A : Type} (subjects : list A) :
  let parts := subset_subjects subjects <$> seq 0 (num_charts (length subjects)) in
  mjoin parts = subjects ∧
  length parts * 5 < length subjects + 5 ∧
  (∀ i part, parts !! i = Some part →
     1 ≤ length part ≤ 5 ∧ (i + 1 < length parts → length part = 5)).
Proof.
  cbv zeta. pose proof (num_charts_bounds (length subjects)) as [Hlo Hhi].
  split; [|split].
  - rewrite parts_join. by apply take_ge.
  - by rewrite length_fmap, length_seq.
  - intros i part. rewrite length_fmap, length_seq, list_lookup_fmap.
    destruct (seq 0 (num_charts (length subjects)) !! i) as [i'|] eqn:Hi; [|done].
    apply lookup_seq in Hi as [-> Hi]. intros [= <-].
    rewrite length_subset_subjects. lia.
Qed.

(** *** The charts of the grade distribution *)

Section blocks.
Context {K E : Type} `{EqDecision K}.

Lemma unique_app (l1 l2 : list K) :
  unique (l1 ++ l2) = unique l1 ++ filter (λ x, x ∉ l1) (unique l2).
Proof.
  induction l1 as [|x l1 IHl]; simpl.
  - symmetry. apply filter_id. intros y _. apply not_elem_of_nil.
  - f_equal. rewrite IHl, filter_app. f_equal.
    rewrite list_filter_filter. apply list_filter_iff. intros y.
    rewrite not_elem_of_cons. tauto.
Qed.

Lemma unique_constant (x : K) (l : list K) :
  l ≠ [] → (∀ y, y ∈ l → y = x) → unique l = [x].
Proof.
  intros Hne Hall. destruct l as [|y l]; [done|].
  assert (y = x) as -> by (apply Hall; left). simpl. f_equal. apply filter_none.
  intros z Hz Hzx. apply (proj1 (elem_of_unique _ _)) in Hz.
  apply Hzx, Hall. by right.
Qed.

(** A table made of one non-empty block per key, in the order of a
    duplicate-free list of keys, has these keys as its distinct labels, in
    that order. *)
Lemma unique_blocks (label : E → K) (f : K → list E) (l : list K) :
  (∀ k, f k ≠ []) → (∀ k e, e ∈ f k → label e = k) → NoDup l →
  unique (label <$> (l ≫= f)) = l.
Proof.
  intros Hne Hlabel. induction 1 as [|k l Hk Hl IHl]; [done|].
  rewrite bind_cons, fmap_app, unique_app, IHl.
  rewrite (unique_constant k).
  - simpl. f_equal. apply filter_id. intros y Hy (e & -> & He)%list_elem_of_fmap.
    rewrite (Hlabel k e He) in Hy. done.
  - specialize (Hne k). by destruct (f k).
  - intros y (e & -> & He)%list_elem_of_fmap. by apply Hlabel.
Qed.

Lemma filter_blocks (label : E → K) (f : K → list E) (P : K → Prop)
    `{!∀ k, Decision (P k)} (l : list K) :
  (∀ k e, e ∈ f k → label e = k) →
  filter (λ e, P (label e)) (l ≫= f) = filter P l ≫= f.
Proof.
  intros Hlabel. induction l as [|k l IHl]; [done|].
  rewrite bind_cons, filter_app, IHl, filter_cons.
  destruct (decide (P k)) as [HP|HP].
  - rewrite bind_cons. f_equal. apply filter_id. intros e He.
    by rewrite (Hlabel k e He).
  - rewrite filter_none; [done|]. intros e He. by rewrite (Hlabel k e He).
Qed.

Lemma filter_middle (l1 c l2 : list K) :
  NoDup (l1 ++ c ++ l2) → filter (λ x, x ∈ c) (l1 ++ c ++ l2) = c.
Proof.
  intros (_ & Hdisj1 & (_ & Hdisj2 & _)%NoDup_app)%NoDup_app.
  rewrite !filter_app.
  rewrite (filter_none _ l1); cycle 1.
  { intros x Hx Hin. apply (Hdisj1 x Hx). apply elem_of_app. by left. }
  rewrite (filter_id _ c) by done.
  rewrite (filter_none _ l2); cycle 1.
  { intros x Hx Hin. by apply (Hdisj2 x Hin). }
  by rewrite app_nil_r.
Qed.

(** Selecting the keys of a consecutive part of a duplicate-free list
    gives the part. *)
Lemma filter_part (l : list K) (a n : nat) :
  NoDup l → filter (λ x, x ∈ take n (drop a l)) l = take n (drop a l).
Proof.
  intros Hl.
  pose proof (filter_middle (take a l) (take n (drop a l)) (drop n (drop a l))) as H.
  rewrite !take_drop in H. by apply H.
Qed.

Lemma join_blocks {I} (f : K → list E) (g : I → list K) (ls : list I) :
  mjoin ((λ i, g i ≫= f) <$> ls) = mjoin (g <$> ls) ≫= f.
Proof.
  induction ls as [|l ls IHls]; [done|]. cbn [fmap list_fmap mjoin list_join].
  rewrite bind_app. f_equal. exact IHls.
Qed.

End blocks.

Lemma grade_row_SUBCODE (table : list Row) (k : string) (e : GradeCount.row) :
  e ∈ grade_row table k <$> grade_order → GradeCount.SUBCODE e = k.
Proof. by intros (g & -> & _)%list_elem_of_fmap. Qed.

Lemma grade_chart_data (table : list Row) (title_prefix : string) :
  let subjects := unique (SUBCODE <$> table) in
  chart_data <$> plot_grade_distribution_per_subject
                   (subjects ≫= λ s, grade_row table s <$> grade_order) title_prefix
  = (λ i, subset_subjects subjects i ≫= λ s, grade_row table s <$> grade_order)
      <$> seq 0 (num_charts (length subjects)).
Proof.
  intros subjects. unfold plot_grade_distribution_per_subject. cbv zeta.
  subst subjects. set (subjects := unique (SUBCODE <$> table)).
  rewrite (unique_blocks GradeCount.SUBCODE);
    [|done|apply grade_row_SUBCODE|apply NoDup_unique].
  rewrite <- list_fmap_compose. apply list_fmap_ext. intros _ i _.
  unfold compose. cbn [chart_data].
  trans (filter (λ k, k ∈ subset_subjects subjects i) subjects
           ≫= λ s, grade_row table s <$> grade_order).
  - rewrite <- (filter_blocks GradeCount.SUBCODE) by apply grade_row_SUBCODE.
    by apply list_filter_iff.
  - f_equal. rewrite subset_subjects_take. apply filter_part, NoDup_unique.
Qed.

(** For the table of [grade_distribution_per_subject] on any frame,
    [plot_grade_distribution_per_subject] draws ceil(n / 5) charts for the
    n subject codes of the frame; the frames of the charts, one after the
    other, are the table: no entry is left out, repeated or moved; and
    every chart has the seven entries of each of its one to five
    subjects. *)
Theorem grade_distribution_charts (df : DataFrame) (t : list GradeCount.row)
    (title_prefix : string) :
  (grade_distribution_per_subject df).2 = inr t →
  let charts := plot_grade_distribution_per_subject t title_prefix in
  let n := size (list_to_set (SUBCODE <$> rows df) : gset string) in
  mjoin (chart_data <$> charts) = t ∧
  length charts * 5 < n + 5 ∧ n ≤ length charts * 5 ∧
  ∀ c, c ∈ charts →
    ∃ k, 1 ≤ k ≤ 5 ∧ length (chart_data c) = 7 * k.
Proof.
  rewrite grade_distribution_run. intros Ht.
  assert (t = unique (SUBCODE <$> rows df)
                ≫= λ s, grade_row (rows df) s <$> grade_order) as ->
    by (cbn [snd] in Ht; congruence).
  clear Ht. cbv zeta.
  pose proof (grade_chart_data (rows df) title_prefix) as Hdata. cbv zeta in Hdata.
  pose proof (chart_parts (unique (SUBCODE <$> rows df))) as (Hjoin & Hlen & Hparts).
  rewrite length_fmap, length_seq in Hlen.
  pose proof (num_charts_bounds (length (unique (SUBCODE <$> rows df)))) as [Hlo _].
  assert (length (plot_grade_distribution_per_subject
            (unique (SUBCODE <$> rows df) ≫= λ s, grade_row (rows df) s <$> grade_order)
            title_prefix) = num_charts (length (unique (SUBCODE <$> rows df)))) as Hn.
  { rewrite <- (length_fmap chart_data), Hdata. by rewrite length_fmap, length_seq. }
  split; [|split; [|split]].
  - rewrite Hdata.
    rewrite (join_blocks _ (subset_subjects (unique (SUBCODE <$> rows df)))).
    by rewrite Hjoin.
  - rewrite Hn, <- length_unique. exact Hlen.
  - rewrite Hn, <- length_unique. exact Hlo.
  - intros c Hc.
    assert (chart_data c ∈ chart_data <$> plot_grade_distribution_per_subject
              (unique (SUBCODE <$> rows df) ≫= λ s, grade_row (rows df) s <$> grade_order)
              title_prefix) as Hin by (by apply list_elem_of_fmap_2).
    rewrite Hdata in Hin. apply list_elem_of_fmap in Hin as (i & -> & Hi).
    apply list_elem_of_lookup in Hi as (i' & Hi').
    pose proof (Hparts i' (subset_subjects (unique (SUBCODE <$> rows df)) i)) as [Hk _].
    { by rewrite list_lookup_fmap, Hi'. }
    exists (length (subset_subjects (unique (SUBCODE <$> rows df)) i)).
    split; [done|].
    rewrite (length_blocks _ 7) by (intros s; by rewrite length_fmap). lia.
Qed.

Lemma grade_distribution_charts_witness :
  ∃ t, (grade_distribution_per_subject (mkDF sample None)).2 = inr t ∧
    mjoin (chart_data <$> plot_grade_distribution_per_subject t "Grades") = t ∧
    length (plot_grade_distribution_per_subject t "Grades") * 5
    < size (list_to_set (SUBCODE <$> sample) : gset string) + 5 ∧
    size (list_to_set (SUBCODE <$> sample) : gset string)
    ≤ length (plot_grade_distribution_per_subject t "Grades") * 5 ∧
    ∀ c, c ∈ plot_grade_distribution_per_subject t "Grades" →
      ∃ k, 1 ≤ k ≤ 5 ∧ length (chart_data c) = 7 * k.
Proof.
  eexists. split; [reflexivity|].
  apply (grade_distribution_charts (mkDF sample None) _ "Grades"). reflexivity.
Defined.

(** *** The charts of the subject-wise counts and of the averages *)

Section melt_facts.
Context {K C V : Type} `{EqDecision K}.

Lemma filter_zip_row (c : C) (ids : list K) (vals : list V) (j : nat) (s : K) (v : V) :
  NoDup ids → ids !! j = Some s → vals !! j = Some v →
  filter (λ x : K * C * V, x.1.1 = s) (zip_with (λ k v, (k, c, v)) ids vals)
  = [(s, c, v)].
Proof.
  intros Hids. revert vals j. induction Hids as [|k ids Hk Hids IH]; intros vals j Hs Hv.
  - by rewrite lookup_nil in Hs.
  - destruct vals as [|v' vals]; [by rewrite lookup_nil in Hv|].
    cbn [zip_with]. rewrite filter_cons. cbn [fst].
    destruct j as [|j]; simplify_eq/=.
    + rewrite decide_True by done. f_equal. apply filter_none.
      intros [[k' c'] v''] (x & y & [= -> -> ->] & Hx & _)%elem_of_zip_with Heq.
      simpl in Heq. by subst.
    + rewrite decide_False; [by apply (IH vals j)|].
      intros ->. apply Hk. by eapply list_elem_of_lookup_2.
Qed.

(** In a melted frame whose ids are distinct, the entries of an id are its
    values under the variables, in the order of the variables. *)
Lemma filter_melt_row (ids : list K) (vars : list (C * list V)) (vs : list V)
    (j : nat) (s : K) :
  NoDup ids → ids !! j = Some s →
  Forall2 (λ cv v, cv.2 !! j = Some v) vars vs →
  filter (λ x : K * C * V, x.1.1 = s) (melt ids vars)
  = zip_with (λ cv v, (s, cv.1, v)) vars vs.
Proof.
  intros Hids Hs. unfold melt. induction 1 as [|cv v vars vs Hv Hvs IH]; [done|].
  rewrite bind_cons, filter_app, IH. cbn [zip_with].
  by rewrite (filter_zip_row _ _ _ j s v).
Qed.

End melt_facts.

Lemma subject_wise_codes (df : DataFrame) (t : list SubjectPassFail.row) :
  (subject_wise_pass_fail df).2 = inr t → NoDup (SubjectPassFail.SUBJECT_CODE <$> t).
Proof.
  rewrite subject_wise_pass_fail_run. unfold set_columns. case_decide; [|done].
  rewrite agg_ret. cbn [snd]. intros Ht.
  assert (t = (λ e : string * list nat,
                 SubjectPassFail.mk e.1 (e.2 !!! 0) (e.2 !!! 1))
                <$> zip (index (unstack String.le bool_le
                           (groupby_size (lex_le String.le bool_le) by_SUBCODE_Pass
                              (with_Pass (rows df))) 0))
                        (cells (unstack String.le bool_le
                           (groupby_size (lex_le String.le bool_le) by_SUBCODE_Pass
                              (with_Pass (rows df))) 0))) as -> by congruence.
  unfold unstack. cbn [index cells]. rewrite zip_fmap_self.
  rewrite <- !list_fmap_compose.
  rewrite (list_fmap_ext _ id _) by done. rewrite list_fmap_id.
  rewrite merge_sort_Permutation. apply NoDup_unique.
Qed.

(** For every table that [subject_wise_pass_fail] returns and every row j
    of it, the chart number j // 5 of [plot_subject_wise_pass_fail] draws
    three values for the subject of the row: its "Fail" count, its "Pass"
    count and, under the result "index", the number j of the row, which
    the second [reset_index()] turns into a column. *)
Theorem subject_wise_charts (df : DataFrame) (t : list SubjectPassFail.row)
    (title_prefix : string) (j : nat) (e : SubjectPassFail.row) :
  (subject_wise_pass_fail df).2 = inr t → t !! j = Some e →
  ∃ c, plot_subject_wise_pass_fail t title_prefix !! (j / 5) = Some c ∧
    chart_title c = title_prefix +:+ " - Part " +:+ pretty (j / 5 + 1) ∧
    filter (λ x, x.1.1 = SubjectPassFail.SUBJECT_CODE e) (chart_data c)
    = [(SubjectPassFail.SUBJECT_CODE e, "index", j);
       (SubjectPassFail.SUBJECT_CODE e, "Fail", SubjectPassFail.Fail e);
       (SubjectPassFail.SUBJECT_CODE e, "Pass", SubjectPassFail.Pass e)].
Proof.
  intros Hcodes%subject_wise_codes He.
  assert (j < length t) as Hj by (by eapply lookup_lt_Some).
  assert ((SubjectPassFail.SUBJECT_CODE <$> t) !! j
          = Some (SubjectPassFail.SUBJECT_CODE e)) as Hs
    by (by rewrite list_lookup_fmap, He).
  unfold plot_subject_wise_pass_fail. cbv zeta.
  rewrite list_lookup_fmap, lookup_seq_lt
    by (rewrite length_fmap; by apply div_lt_num_charts).
  eexists. split; [reflexivity|]. cbn [chart_title chart_data]. split; [done|].
  rewrite list_filter_filter.
  rewrite (list_filter_iff _ (λ x, x.1.1 = SubjectPassFail.SUBJECT_CODE e)); cycle 1.
  { intros x. split; [tauto|]. intros Hx. split; [done|]. rewrite Hx.
    by apply lookup_subset_subjects. }
  rewrite (filter_melt_row _ _ [j; SubjectPassFail.Fail e; SubjectPassFail.Pass e] j
             (SubjectPassFail.SUBJECT_CODE e)); [done|done|done|].
  repeat constructor; cbn [snd].
  - by apply lookup_seq_lt.
  - by rewrite list_lookup_fmap, He.
  - by rewrite list_lookup_fmap, He.
Qed.

Lemma subject_wise_charts_witness :
  ∃ c, plot_subject_wise_pass_fail
         [SubjectPassFail.mk "AE101" 0 2; SubjectPassFail.mk "AE102" 1 0] "Subjects"
       !! (1 / 5) = Some c ∧
    chart_title c = "Subjects" +:+ " - Part " +:+ pretty (1 / 5 + 1) ∧
    filter (λ x, x.1.1 = "AE102") (chart_data c)
    = [("AE102", "index", 1); ("AE102", "Fail", 1); ("AE102", "Pass", 0)].
Proof.
  apply (subject_wise_charts (mkDF sample None) _ "Subjects" 1
           (SubjectPassFail.mk "AE102" 1 0)); reflexivity.
Defined.

Section avg_charts.
Variable str_to_num : string → option Q.
Variable round2 : Q → Q.

Lemma avg_marks_codes (df : DataFrame) (t : list SubjectAvg.row) :
  (avg_marks_per_subject str_to_num df).2 = inr t →
  NoDup (SubjectAvg.SUBJECT_CODE <$> t).
Proof.
  rewrite avg_marks_run. cbn [snd]. rewrite avg_marks_rows. intros Ht.
  assert (t = avg_row str_to_num (rows df) <$> group_keys String.le by_SUBCODE (rows df))
    as -> by congruence.
  rewrite <- list_fmap_compose. rewrite (list_fmap_ext _ id _) by done.
  rewrite list_fmap_id. apply NoDup_group_keys.
Qed.

(** For every table that [avg_marks_per_subject] returns and every row j
    of it, the chart number j // 5 of [plot_avg_marks_per_subject] draws
    exactly three values for the subject of the row: its internal, external
    and total means, rounded, a mean without value staying without value. *)
Theorem avg_marks_charts (df : DataFrame) (t : list SubjectAvg.row)
    (title_prefix : string) (j : nat) (e : SubjectAvg.row) :
  (avg_marks_per_subject str_to_num df).2 = inr t → t !! j = Some e →
  ∃ c, plot_avg_marks_per_subject round2 t title_prefix !! (j / 5) = Some c ∧
    chart_title c = title_prefix +:+ " - Part " +:+ pretty (j / 5 + 1) ∧
    filter (λ x, x.1.1 = SubjectAvg.SUBJECT_CODE e) (chart_data c)
    = [(SubjectAvg.SUBJECT_CODE e, "INTERNAL", round2 <$> SubjectAvg.INTERNAL e);
       (SubjectAvg.SUBJECT_CODE e, "EXTERNAL", round2 <$> SubjectAvg.EXTERNAL e);
       (SubjectAvg.SUBJECT_CODE e, "TOTAL", round2 <$> SubjectAvg.TOTAL e)].
Proof.
  intros Hcodes%avg_marks_codes He.
  assert (j < length t) as Hj by (by eapply lookup_lt_Some).
  assert ((SubjectAvg.SUBJECT_CODE <$> t) !! j = Some (SubjectAvg.SUBJECT_CODE e)) as Hs
    by (by rewrite list_lookup_fmap, He).
  unfold plot_avg_marks_per_subject. cbv zeta.
  rewrite list_lookup_fmap, lookup_seq_lt
    by (rewrite length_fmap; by apply div_lt_num_charts).
  eexists. split; [reflexivity|]. cbn [chart_title chart_data]. split; [done|].
  rewrite list_filter_filter.
  rewrite (list_filter_iff _ (λ x, x.1.1 = SubjectAvg.SUBJECT_CODE e)); cycle 1.
  { intros x. split; [tauto|]. intros Hx. split; [done|]. rewrite Hx.
    by apply lookup_subset_subjects. }
  rewrite (filter_fmap_iff _ _ (λ x : string * string * option Q,
                                  x.1.1 = SubjectAvg.SUBJECT_CODE e)) by done.
  rewrite (filter_melt_row _ _
             [SubjectAvg.INTERNAL e; SubjectAvg.EXTERNAL e; SubjectAvg.TOTAL e] j
             (SubjectAvg.SUBJECT_CODE e)); [done|done|done|].
  repeat constructor; cbn [snd]; by rewrite list_lookup_fmap, He.
Qed.

End avg_charts.

Lemma avg_marks_charts_witness :
  ∃ c, plot_avg_marks_per_subject Qred
         [SubjectAvg.mk "AE101" (Some 40%Q) (Some 45%Q) None;
          SubjectAvg.mk "AE102" (Some 40%Q) (Some 45%Q) None] "Marks"
       !! (1 / 5) = Some c ∧
    chart_title c = "Marks" +:+ " - Part " +:+ pretty (1 / 5 + 1) ∧
    filter (λ x, x.1.1 = "AE102") (chart_data c)
    = [("AE102", "INTERNAL", Qred <$> Some 40%Q);
       ("AE102", "EXTERNAL", Qred <$> Some 45%Q);
       ("AE102", "TOTAL", Qred <$> None)].
Proof.
  apply (avg_marks_charts decimal Qred (mkDF sample None) _ "Marks" 1
           (SubjectAvg.mk "AE102" (Some 40%Q) (Some 45%Q) None)); reflexivity.
Defined.

(** *** The chart of the departments *)

Lemma value_columns_department (table : list Row) :
  let codes := index (department_table table) in
  value_columns (department_table table)
  = [("Pass", (λ code, students table code "Pass") <$> codes);
     ("Fail", (λ code, students table code "Fail") <$> codes)].
Proof.
  unfold value_columns, department_table. cbn [index columns cells].
  rewrite !imap_cons, imap_nil. unfold compose.
  rewrite <- !list_fmap_compose. reflexivity.
Qed.

(** For the table of [department_wise_pass_fail] on any frame, the frame of
    [plot_department_wise_chart] has one "Pass" entry for every department
    code of the table, then one "Fail" entry for every code, in the order
    of the table, each with the number of students of the code with that
    status, also when the number is 0. *)
Theorem department_chart (df : DataFrame) (t : Pivot string string nat)
    (selected_semester : string) :
  (department_wise_pass_fail df).2 = inr t →
  chart_data (plot_department_wise_chart t selected_semester)
  = ((λ code, (code, "Pass", students (rows df) code "Pass")) <$> index t)
    ++ ((λ code, (code, "Fail", students (rows df) code "Fail")) <$> index t).
Proof.
  rewrite department_wise_run. cbn [snd]. intros Ht.
  assert (t = department_table (rows df)) as -> by congruence.
  unfold plot_department_wise_chart. cbn [chart_data].
  rewrite value_columns_department. cbv zeta. unfold melt.
  rewrite !bind_cons. cbn [fst snd]. f_equal.
  - by rewrite zip_with_fmap_r, zip_with_diag.
  - rewrite zip_with_fmap_r, zip_with_diag. apply app_nil_r.
Qed.

Lemma department_chart_witness :
  chart_data (plot_department_wise_chart (mkPivot ["AERO"] ["Pass"; "Fail"] [[1; 1]])
                "Semester 5")
  = ((λ code, (code, "Pass", students sample code "Pass")) <$> ["AERO"])
    ++ ((λ code, (code, "Fail", students sample code "Fail")) <$> ["AERO"]).
Proof.
  apply (department_chart (mkDF sample None) (mkPivot ["AERO"] ["Pass"; "Fail"] [[1; 1]])
           "Semester 5").
  reflexivity.
Defined.

(** *** The pie chart of the students *)

Section loc_facts.
Context {K V : Type} `{EqDecision K}.

Lemma loc_elem (s : list (K * V)) (k : K) (v : V) :
  NoDup (s.*1) → (k, v) ∈ s → loc s k = Some v.
Proof.
  induction s as [|[k' v'] s IHs]; intros Hs Hin; [by apply elem_of_nil in Hin|].
  rewrite fmap_cons in Hs. apply NoDup_cons in Hs as [Hk' Hs]. simpl.
  apply elem_of_cons in Hin as [[= -> ->]|Hin].
  - by rewrite decide_True.
  - rewrite decide_False; [by apply IHs|]. intros ->. apply Hk'.
    apply list_elem_of_fmap. by exists (k, v).
Qed.

Lemma loc_absent (s : list (K * V)) (k : K) : k ∉ s.*1 → loc s k = None.
Proof.
  induction s as [|[k' v'] s IHs]; intros Hk; [done|].
  rewrite fmap_cons in Hk. apply not_elem_of_cons in Hk as [Hne Hk]. simpl.
  rewrite decide_False by done. by apply IHs.
Qed.

End loc_facts.

Lemma value_counts_labels {A} `{EqDecision A} (l : list A) :
  (value_counts l).*1 ≡ₚ unique l.
Proof.
  unfold value_counts. rewrite sort_by_count_Permutation, <- list_fmap_compose.
  by rewrite list_fmap_id.
Qed.

(** A count that is looked up and filled with 0 is the number of
    occurrences, whether the value occurs or not. *)
Lemma loc_value_counts {A} `{EqDecision A} (l : list A) (v : A) :
  default 0 (loc (value_counts l) v) = length (filter (λ x, x = v) l).
Proof.
  destruct (decide (v ∈ l)) as [Hv|Hv].
  - rewrite (loc_elem _ v (length (filter (λ x, x = v) l))); [done| |].
    + rewrite value_counts_labels. apply NoDup_unique.
    + by apply elem_of_value_counts.
  - rewrite loc_absent by (by rewrite value_counts_labels, elem_of_unique).
    simpl. symmetry. rewrite filter_none; [done|]. by intros x Hx ->.
Qed.

Lemma keys_REGNO_Permutation (table : list Row) :
  group_keys Z.le by_REGNO (with_Pass table) ≡ₚ unique (REGNO <$> table).
Proof.
  unfold group_keys. rewrite merge_sort_Permutation. unfold by_REGNO, with_Pass.
  by rewrite omap_Some, <- list_fmap_compose.
Qed.

Lemma count_status (table : list Row) (b : bool) :
  length (filter (λ x, x = status_label b)
            (StudentStatus.Status <$> student_pass_fail (with_Pass table)))
  = length (filter (λ r, passed table r = b) (unique (REGNO <$> table))).
Proof.
  rewrite student_pass_fail_rows, <- list_fmap_compose, filter_fmap, length_fmap.
  rewrite (length_filter_Permutation _ _ _ (keys_REGNO_Permutation table)).
  f_equal. apply list_filter_iff. intros r. unfold compose.
  rewrite status_row_Status. unfold status_of.
  by destruct (passed table r), b.
Qed.

(** For the table of [determine_pass_fail] on any frame, the frame of
    [pass_fail_chart] has the entry "Pass" and then the entry "Fail", also
    when one count is 0; the counts are the numbers of registration ids
    without and with a row of grade "U"; they add up to the number of
    distinct registration ids, which is the total the title shows. *)
Theorem pass_fail_chart_counts (df : DataFrame) (t : list StudentStatus.row) :
  (determine_pass_fail df).2 = inr t →
  let ids := unique (REGNO <$> rows df) in
  let np := length (filter (λ r, passed (rows df) r = true) ids) in
  let nf := length (filter (λ r, passed (rows df) r = false) ids) in
  (λ e, (PassFailCount.Status e, PassFailCount.Count e)) <$> chart_data (pass_fail_chart t)
  = [("Pass", np); ("Fail", nf)] ∧
  chart_title (pass_fail_chart t)
  = "Pass/Fail Count (Total: " +:+ pretty (length ids) +:+ ")" ∧
  np + nf = length ids.
Proof.
  rewrite determine_pass_fail_run. cbn [snd]. intros Ht.
  assert (t = student_pass_fail (with_Pass (rows df))) as -> by congruence.
  cbv zeta.
  assert (length (filter (λ r, passed (rows df) r = true) (unique (REGNO <$> rows df)))
          + length (filter (λ r, passed (rows df) r = false) (unique (REGNO <$> rows df)))
          = length (unique (REGNO <$> rows df))) as Hsum.
  { rewrite <- length_app.
    rewrite <- (filter_app_complement (λ r, passed (rows df) r = true)
                  (unique (REGNO <$> rows df))) at 3.
    rewrite !length_app. f_equal. f_equal. apply list_filter_iff. intros r.
    by destruct (passed (rows df) r). }
  unfold pass_fail_chart, reindex. cbn [chart_data chart_title fmap list_fmap fst snd].
  rewrite !loc_value_counts.
  pose proof (count_status (rows df) true) as Hp.
  pose proof (count_status (rows df) false) as Hf.
  unfold status_label in Hp, Hf. rewrite Hp, Hf.
  split; [done|]. split; [|done].
  do 3 f_equal. rewrite !sum_list_cons. simpl. lia.
Qed.

Lemma pass_fail_chart_counts_witness :
  ∃ t, (determine_pass_fail (mkDF sample None)).2 = inr t ∧
    (λ e, (PassFailCount.Status e, PassFailCount.Count e)) <$> chart_data (pass_fail_chart t)
    = [("Pass", length (filter (λ r, passed sample r = true) (unique (REGNO <$> sample))));
       ("Fail", length (filter (λ r, passed sample r = false) (unique (REGNO <$> sample))))] ∧
    chart_title (pass_fail_chart t)
    = "Pass/Fail Count (Total: " +:+ pretty (length (unique (REGNO <$> sample))) +:+ ")" ∧
    length (filter (λ r, passed sample r = true) (unique (REGNO <$> sample)))
    + length (filter (λ r, passed sample r = false) (unique (REGNO <$> sample)))
    = length (unique (REGNO <$> sample)).
Proof.
  eexists. split; [reflexivity|].
  apply (pass_fail_chart_counts (mkDF sample None)). reflexivity.
Defined.

(** *** The arrear distribution, entry by entry *)

Lemma group_failures (table : list Row) (r : Z) :
  length (group REGNO_of (failed_rows table) r) = failures table r.
Proof.
  unfold group, failed_rows, failures, REGNO_of. rewrite list_filter_filter.
  f_equal. apply list_filter_iff. intros row. split.
  - intros [[= ?] ?]. done.
  - intros [-> ?]. done.
Qed.

Lemma arrears_per_student_failures (table : list Row) :
  arrears_per_student table
  = failures table <$> group_keys Z.le REGNO_of (failed_rows table).
Proof.
  unfold arrears_per_student, groupby. rewrite <- list_fmap_compose.
  apply list_fmap_ext. intros _ r _. apply group_failures.
Qed.

Lemma failures_pos (table : list Row) (r : Z) :
  failures table r ≠ 0 ↔ ∃ row, row ∈ table ∧ REGNO row = r ∧ GRADE row = "U".
Proof.
  unfold failures. rewrite length_zero_iff_nil. split.
  - intros Hne.
    destruct (filter (λ row, REGNO row = r ∧ GRADE row = "U") table) as [|row l] eqn:Hf;
      [done|].
    assert (row ∈ filter (λ row, REGNO row = r ∧ GRADE row = "U") table) as Hin
      by (rewrite Hf; left).
    apply list_elem_of_filter in Hin. exists row. tauto.
  - intros (row & Hrow & Hr & Hu) Hnil.
    assert (row ∈ filter (λ row, REGNO row = r ∧ GRADE row = "U") table) as Hin
      by (by apply list_elem_of_filter).
    rewrite Hnil in Hin. by apply elem_of_nil in Hin.
Qed.

Lemma elem_of_failed_keys (table : list Row) (r : Z) :
  r ∈ group_keys Z.le REGNO_of (failed_rows table) ↔ failures table r ≠ 0.
Proof.
  rewrite elem_of_group_keys, failures_pos. unfold failed_rows, REGNO_of. split.
  - intros (row & [Hu Hrow]%list_elem_of_filter & [= Hr]). eauto.
  - intros (row & Hrow & Hr & Hu). exists row. rewrite list_elem_of_filter.
    by rewrite Hr.
Qed.

(** The students with exactly [k] failed rows, for [k] other than 0, are
    found among the ids of the failed rows as well as among all ids. *)
Lemma students_with_failures (table : list Row) (k : nat) :
  k ≠ 0 →
  filter (λ r, failures table r = k) (group_keys Z.le REGNO_of (failed_rows table))
  ≡ₚ filter (λ r, failures table r = k) (unique (REGNO <$> table)).
Proof.
  intros Hk. apply NoDup_Permutation.
  - apply NoDup_filter, NoDup_group_keys.
  - apply NoDup_filter, NoDup_unique.
  - intros r. rewrite !list_elem_of_filter, elem_of_failed_keys, elem_of_unique. split.
    + intros [Hr _]. split; [done|].
      assert (failures table r ≠ 0) as (row & Hrow & <- & _)%failures_pos by lia.
      apply list_elem_of_fmap. eauto.
    + intros [Hr _]. split; [done|lia].
Qed.

(** For every frame, the table of [subjects_failed] has one entry for each
    number k of failed subjects that some student has: k is not 0, the
    count is the number of registration ids with exactly k rows of grade
    "U", no number k has two entries, and the entries come with the
    largest count first. *)
Theorem subjects_failed_entries (df : DataFrame) :
  ∃ t, (subjects_failed df).2 = inr t ∧
    NoDup (Arrears.Subjects_Failed <$> t) ∧
    Sorted (λ a b, Arrears.Student_Count b ≤ Arrears.Student_Count a) t ∧
    ∀ k c, Arrears.mk k c ∈ t ↔
      k ≠ 0 ∧ c ≠ 0 ∧
      c = length (filter (λ r, failures (rows df) r = k) (unique (REGNO <$> rows df))).
Proof.
  rewrite subjects_failed_run. eexists. split; [reflexivity|]. split; [|split].
  - rewrite <- list_fmap_compose.
    rewrite (list_fmap_ext _ fst) by done.
    rewrite value_counts_labels. apply NoDup_unique.
  - apply (Sorted_fmap _ by_count_desc); [by intros [] []|].
    apply Sorted_sort_by_count.
  - intros k c. rewrite list_elem_of_fmap.
    trans ((k, c) ∈ value_counts (arrears_per_student (rows df))).
    { split; [by intros ([] & [= -> ->] & ?)|]. intros Hin. by exists (k, c). }
    rewrite elem_of_value_counts, arrears_per_student_failures.
    rewrite filter_fmap, length_fmap, list_elem_of_fmap. split.
    + intros [(r & -> & Hr) ->]. apply elem_of_failed_keys in Hr as Hpos.
      split; [done|].
      pose proof (Permutation_length (students_with_failures (rows df) _ Hpos)) as Hlen.
      cbv beta. rewrite <- Hlen. split; [|done].
      rewrite length_zero_iff_nil. intros Hnil.
      assert (r ∈ filter (λ r0, failures (rows df) r0 = failures (rows df) r)
                    (group_keys Z.le REGNO_of (failed_rows (rows df)))) as Hin
        by (by apply list_elem_of_filter).
      rewrite Hnil in Hin. by apply elem_of_nil in Hin.
    + intros (Hk & Hc & ->).
      pose proof (Permutation_length (students_with_failures (rows df) _ Hk)) as Hlen.
      cbv beta. rewrite <- Hlen. split; [|done].
      rewrite <- Hlen, length_zero_iff_nil in Hc.
      destruct (filter (λ r, failures (rows df) r = k)
                  (group_keys Z.le REGNO_of (failed_rows (rows df)))) as [|r l] eqn:Hf;
        [done|].
      assert (r ∈ filter (λ r, failures (rows df) r = k)
                    (group_keys Z.le REGNO_of (failed_rows (rows df)))) as Hin
        by (rewrite Hf; left).
      apply list_elem_of_filter in Hin as [Hrk Hr]. eauto.
Qed.

(** *** The order of the subjects *)

Lemma subject_wise_code_column (df : DataFrame) (t : list SubjectPassFail.row) :
  (subject_wise_pass_fail df).2 = inr t →
  SubjectPassFail.SUBJECT_CODE <$> t = merge_sort String.le (unique (SUBCODE <$> rows df)).
Proof.
  rewrite subject_wise_pass_fail_run. unfold set_columns. case_decide; [|done].
  rewrite agg_ret. cbn [snd]. intros Ht.
  assert (t = (λ e : string * list nat,
                 SubjectPassFail.mk e.1 (e.2 !!! 0) (e.2 !!! 1))
                <$> zip (index (unstack String.le bool_le
                           (groupby_size (lex_le String.le bool_le) by_SUBCODE_Pass
                              (with_Pass (rows df))) 0))
                        (cells (unstack String.le bool_le
                           (groupby_size (lex_le String.le bool_le) by_SUBCODE_Pass
                              (with_Pass (rows df))) 0))) as -> by congruence.
  unfold unstack. cbn [index cells].
  rewrite (sorted_keys_ext String.le _ (SUBCODE <$> rows df))
    by apply elem_of_SUBCODE_rows.
  rewrite zip_fmap_self, <- !list_fmap_compose.
  rewrite (list_fmap_ext _ id _) by done. apply list_fmap_id.
Qed.

Section order.
Variable str_to_num : string → option Q.

Lemma avg_marks_code_column (df : DataFrame) (t : list SubjectAvg.row) :
  (avg_marks_per_subject str_to_num df).2 = inr t →
  SubjectAvg.SUBJECT_CODE <$> t = merge_sort String.le (unique (SUBCODE <$> rows df)).
Proof.
  rewrite avg_marks_run. cbn [snd]. rewrite avg_marks_rows. intros Ht.
  assert (t = avg_row str_to_num (rows df) <$> group_keys String.le by_SUBCODE (rows df))
    as -> by congruence.
  rewrite <- list_fmap_compose. rewrite (list_fmap_ext _ id _) by done.
  rewrite list_fmap_id. unfold group_keys, by_SUBCODE. by rewrite omap_Some.
Qed.

(** When [subject_wise_pass_fail] and [avg_marks_per_subject] return
    tables for the same rows, the two tables have the same column of
    subject codes: every subject code of the rows once, in ascending
    order.  So row j of one table and row j of the other are about the same
    subject, and part i of the one series of charts shows the subjects of
    part i of the other. *)
Theorem subject_tables_aligned (df : DataFrame)
    (t1 : list SubjectPassFail.row) (t2 : list SubjectAvg.row) :
  (subject_wise_pass_fail df).2 = inr t1 →
  (avg_marks_per_subject str_to_num df).2 = inr t2 →
  SubjectPassFail.SUBJECT_CODE <$> t1 = SubjectAvg.SUBJECT_CODE <$> t2 ∧
  Sorted String.le (SubjectAvg.SUBJECT_CODE <$> t2) ∧
  NoDup (SubjectAvg.SUBJECT_CODE <$> t2) ∧
  ∀ s, s ∈ SubjectAvg.SUBJECT_CODE <$> t2 ↔ s ∈ SUBCODE <$> rows df.
Proof.
  intros ->%subject_wise_code_column Ht2%avg_marks_code_column. rewrite Ht2.
  split; [done|]. split; [apply (Sorted_merge_sort String.le)|]. split.
  - rewrite merge_sort_Permutation. apply NoDup_unique.
  - intros s. by rewrite merge_sort_Permutation, elem_of_unique.
Qed.

End order.

Lemma subject_tables_aligned_witness :
  SubjectPassFail.SUBJECT_CODE
    <$> [SubjectPassFail.mk "AE101" 0 2; SubjectPassFail.mk "AE102" 1 0]
  = SubjectAvg.SUBJECT_CODE
      <$> [SubjectAvg.mk "AE101" (Some 40%Q) (Some 45%Q) None;
           SubjectAvg.mk "AE102" (Some 40%Q) (Some 45%Q) None] ∧
  Sorted String.le
    (SubjectAvg.SUBJECT_CODE
       <$> [SubjectAvg.mk "AE101" (Some 40%Q) (Some 45%Q) None;
            SubjectAvg.mk "AE102" (Some 40%Q) (Some 45%Q) None]) ∧
  NoDup
    (SubjectAvg.SUBJECT_CODE
       <$> [SubjectAvg.mk "AE101" (Some 40%Q) (Some 45%Q) None;
            SubjectAvg.mk "AE102" (Some 40%Q) (Some 45%Q) None]) ∧
  ∀ s, s ∈ SubjectAvg.SUBJECT_CODE
             <$> [SubjectAvg.mk "AE101" (Some 40%Q) (Some 45%Q) None;
                  SubjectAvg.mk "AE102" (Some 40%Q) (Some 45%Q) None]
       ↔ s ∈ SUBCODE <$> sample.
Proof.
  apply (subject_tables_aligned decimal (mkDF sample None)); reflexivity.
Defined.

(** The table of [grade_distribution_per_subject] has the subjects in the
    order of their first rows in the frame, not in ascending order: its
    charts can show the subjects in another order than the charts of the
    two other tables by subject. *)
Theorem grade_distribution_order (df : DataFrame) (t : list GradeCount.row) :
  (grade_distribution_per_subject df).2 = inr t →
  unique (GradeCount.SUBCODE <$> t) = unique (SUBCODE <$> rows df).
Proof.
  rewrite grade_distribution_run. intros Ht.
  assert (t = unique (SUBCODE <$> rows df)
                ≫= λ s, grade_row (rows df) s <$> grade_order) as ->
    by (cbn [snd] in Ht; congruence).
  apply unique_blocks.
  - done.
  - apply grade_row_SUBCODE.
  - apply NoDup_unique.
Qed.

Lemma grade_distribution_order_witness :
  ∃ t, (grade_distribution_per_subject (mkDF sample None)).2 = inr t ∧
    unique (GradeCount.SUBCODE <$> t) = unique (SUBCODE <$> sample).
Proof.
  eexists. split; [reflexivity|].
  apply (grade_distribution_order (mkDF sample None)). reflexivity.
Defined.

(** *** The options of the select boxes *)

(** With the semester "Overall", a specific department (an option other
    than "Overall" and "Others (Open Elective)") and a branch, both taken
    from the options that the boxes offer for the sheet, select at least
    one row. *)
Theorem offered_selection_has_rows (df : list Row) (w : widgets) :
  selected_department w ∈ department_options df →
  selected_department w ∉ ["Overall"; "Others (Open Elective)"] →
  branch_box w ∈ branch_options df (selected_department w) →
  selected_semester w = Sem_Overall →
  by_semester w (by_department w df) ≠ [].
Proof.
  intros Hdep Hspecific Hbranch Hsem.
  assert (selected_department w ≠ "Others (Open Elective)") as Ho.
  { intros Heq. apply Hspecific. rewrite Heq. right; left. }
  assert (selected_department w ≠ "Overall") as Hall.
  { intros Heq. apply Hspecific. rewrite Heq. left. }
  assert (∃ r, r ∈ df ∧ DEPNAME r = selected_department w
               ∧ (branch_box w = "All" ∨ BRNAME r = branch_box w)) as (r & Hin & Hsel).
  { unfold branch_options in Hbranch.
    apply elem_of_cons in Hbranch as [Hb|Hb].
    - unfold department_options in Hdep.
      apply elem_of_app in Hdep as [Hdep|Hdep]; [done|].
      rewrite merge_sort_Permutation, elem_of_unique in Hdep.
      apply list_elem_of_fmap in Hdep as (r & Hr & Hin). exists r.
      split; [done|]. split; [done|by left].
    - rewrite merge_sort_Permutation, elem_of_unique in Hb.
      apply list_elem_of_fmap in Hb as (r & Hr & [Hd Hin]%list_elem_of_filter).
      exists r. split; [done|]. split; [done|by right]. }
  assert (r ∈ by_semester w (by_department w df)) as Hr.
  { unfold by_semester. rewrite Hsem. cbn [semester_int].
    apply elem_of_by_department. split; [done|]. unfold department_selected.
    by rewrite !decide_False by done. }
  intros Hnil. rewrite Hnil in Hr. by apply elem_of_nil in Hr.
Qed.

Lemma offered_selection_has_rows_witness :
  by_semester (mkWidgets "AEROSPACE ENGINEERING" "AERONAUTICAL" Sem_Overall)
    (by_department (mkWidgets "AEROSPACE ENGINEERING" "AERONAUTICAL" Sem_Overall) sample)
  ≠ [].
Proof.
  apply (offered_selection_has_rows sample
           (mkWidgets "AEROSPACE ENGINEERING" "AERONAUTICAL" Sem_Overall)).
  - by apply (bool_decide_unpack _).
  - by apply (bool_decide_unpack _).
  - by apply (bool_decide_unpack _).
  - reflexivity.
Defined.

(** The selection "Others (Open Elective)" can be without rows on a sheet
    with rows, also with the semester "Overall": the subject codes of the
    example start with a department prefix and are in no list of extra
    subjects. *)
Example sample_others_without_rows :
  main decimal (Some (UG required_cols sample))
       (mkWidgets "Others (Open Elective)" "All" Sem_Overall)
  = ([StWarning "No data available for Others (Open Elective) - All in Semester Overall"],
     Finished None).
Proof. reflexivity. Qed.

(** Values that occur equally often stay in the order of their first
    occurrence. *)
Example value_counts_ties :
  value_counts [3; 1; 2; 1] = [(1, 2); (3, 1); (2, 1)].
Proof. reflexivity. Qed.
